(** * finddd: the matchers of [match.go], embedded and verified

    The Go source defines a [Matcher] interface with one method,
    [Match(fsys fs.FS, path string) bool], a family of concrete matchers
    and a composite that runs its matchers in registration order.

    Conventions of the embedding:
    - Go strings are byte strings: [string] of the Standard Library.
    - [int], [int64] are [Z]; the one arithmetic update in the file
      ([m.count += 1]) is written with its 64-bit wrap-around.
    - [fs.FileMode] is a 32-bit [Z] tested with [Z.land].
    - [time.Time] is the instant it denotes, a [Z]; [Before] and [After]
      are the strict orders on instants.
    - a call that may panic returns a [result]; [error] values are only
      ever tested against [nil] in the source, so a fallible library call
      returns an [option].
    - path functions are those of a Unix target (separator [/], list
      separator [:]). *)

From Stdlib Require Import ZArith List String Ascii Bool Lia.
Import ListNotations.

Local Open Scope string_scope.
Local Open Scope list_scope.

(** ** Panics *)

Inductive result (A : Type) : Type :=
| Ok (a : A)
| Panicked (msg : string).

Arguments Ok {A} a.
Arguments Panicked {A} msg.

Definition bind {A B : Type} (r : result A) (k : A -> result B) : result B :=
  match r with
  | Ok a => k a
  | Panicked msg => Panicked msg
  end.

Notation "x <- c ;; k" := (bind c (fun x => k))
  (at level 61, c at next level, right associativity).

(** [assert] of match.go, line 415. *)
Definition assert (ok : bool) (msg : string) : result unit :=
  if ok then Ok tt else Panicked msg.

(** The panic value of Go's runtime when a nil function value is called: a
    [runtime.Error] with this message. *)
Definition nil_call : string :=
  "runtime error: invalid memory address or nil pointer dereference".

(** ** Package [strings] *)

Module Strings.

Definition bytes (s : string) : list ascii := list_ascii_of_string s.
Definition of_bytes (l : list ascii) : string := string_of_list_ascii l.

Definition byte_in (lo hi c : ascii) : bool :=
  (N_of_ascii lo <=? N_of_ascii c)%N && (N_of_ascii c <=? N_of_ascii hi)%N.

(** ['A' <= c && c <= 'Z'] *)
Definition isUpperByte (c : ascii) : bool := byte_in "A" "Z" c.

(** [c < utf8.RuneSelf] *)
Definition isASCIIByte (c : ascii) : bool := (N_of_ascii c <? 128)%N.

(** [c += 'a' - 'A'] on an upper-case byte. *)
Definition lowerByte (c : ascii) : ascii :=
  if isUpperByte c then ascii_of_N (N_of_ascii c + 32) else c.

Definition hasUpper (s : string) : bool := existsb isUpperByte (bytes s).
Definition isASCII (s : string) : bool := forallb isASCIIByte (bytes s).

(** [strings.HasPrefix]:
    [len(s) >= len(prefix) && s[:len(prefix)] == prefix]. *)
Definition HasPrefix (s prefix : string) : bool :=
  (String.length prefix <=? String.length s)%nat
  && String.eqb (substring 0 (String.length prefix) s) prefix.

(** [strings.HasSuffix]:
    [len(s) >= len(suffix) && s[len(s)-len(suffix):] == suffix]. *)
Definition HasSuffix (s suffix : string) : bool :=
  (String.length suffix <=? String.length s)%nat
  && String.eqb
       (substring (String.length s - String.length suffix)
                  (String.length suffix) s)
       suffix.

Section ToLower.

(** [strings.Map(unicode.ToLower, s)], the path [strings.ToLower] takes
    on a string with a byte outside ASCII.  It depends on the Unicode
    case tables, which are not part of this development. *)
Variable mapUnicodeLower : string -> string.

(** [strings.ToLower]: an ASCII-only string has its bytes ['A'..'Z']
    shifted to ['a'..'z']; any other string goes through the Unicode
    mapping. *)
Definition ToLower (s : string) : string :=
  if isASCII s then of_bytes (map lowerByte (bytes s))
  else mapUnicodeLower s.

End ToLower.

(** [strings.Split(s, string(sep))] for a one-byte separator. *)
Fixpoint Split (sep : ascii) (s : string) : list string :=
  match s with
  | EmptyString => [EmptyString]
  | String c s' =>
      if Ascii.eqb c sep then EmptyString :: Split sep s'
      else match Split sep s' with
           | h :: t => String c h :: t
           | [] => [String c EmptyString]
           end
  end.

(** [strings.Join(elems, string(sep))]. *)
Fixpoint Join (sep : ascii) (elems : list string) : string :=
  match elems with
  | [] => EmptyString
  | [e] => e
  | e :: rest => e ++ String sep (Join sep rest)
  end.

End Strings.

(** ** Package [path/filepath], Unix *)

Module Filepath.

Definition Separator : ascii := "/".
Definition ListSeparator : ascii := ":".

Definition IsPathSeparator (c : ascii) : bool := Ascii.eqb c Separator.

Fixpoint dropWhile {A} (p : A -> bool) (l : list A) : list A :=
  match l with
  | [] => []
  | x :: l' => if p x then dropWhile p l' else l
  end.

Fixpoint takeWhile {A} (p : A -> bool) (l : list A) : list A :=
  match l with
  | [] => []
  | x :: l' => if p x then x :: takeWhile p l' else []
  end.

(** [filepath.Base]: the empty path gives ["."]; trailing separators are
    stripped; the result is what follows the last remaining separator;
    a path of separators only gives ["/"]. *)
Definition Base (path : string) : string :=
  match path with
  | EmptyString => "."
  | _ =>
      let stripped := dropWhile IsPathSeparator (rev (Strings.bytes path)) in
      let last := rev (takeWhile (fun c => negb (IsPathSeparator c)) stripped) in
      match last with
      | [] => String Separator EmptyString
      | _ => Strings.of_bytes last
      end
  end.

(** One element of the path read by [Clean]; [out] is the stack of the
    elements written so far, innermost first.  The source's [out.w > dotdot]
    says that the last element written is a real one, not a [..] of the
    leading [../..] prefix. *)
Definition cleanStep (rooted : bool) (out : list string) (elem : string)
  : list string :=
  if String.eqb elem "" then out
  else if String.eqb elem "." then out
  else if String.eqb elem ".." then
    match out with
    | top :: below =>
        if String.eqb top ".." then
          (if rooted then out else elem :: out)
        else below
    | [] => if rooted then out else elem :: out
    end
  else elem :: out.

(** [filepath.Clean]. *)
Definition Clean (path : string) : string :=
  match path with
  | EmptyString => "."
  | String c _ =>
      let rooted := IsPathSeparator c in
      let out := fold_left (cleanStep rooted) (Strings.Split Separator path) [] in
      let body := Strings.Join Separator (rev out) in
      if rooted then String Separator body
      else match out with
           | [] => "."
           | _ => body
           end
  end.

(** [filepath.SplitList]: splits a list of paths joined by the
    OS-specific [ListSeparator], as found in [PATH]; the empty string
    gives the empty list. *)
Definition SplitList (path : string) : list string :=
  match path with
  | EmptyString => []
  | _ => Strings.Split ListSeparator path
  end.

End Filepath.

(** ** Package [io/fs] *)

Module Fs.

(** [fs.FileMode] bits. *)
Definition ModeDir : Z := Z.shiftl 1 31.
Definition ModeSymlink : Z := Z.shiftl 1 27.
Definition ModeDevice : Z := Z.shiftl 1 26.
Definition ModeNamedPipe : Z := Z.shiftl 1 25.
Definition ModeSocket : Z := Z.shiftl 1 24.
Definition ModeCharDevice : Z := Z.shiftl 1 21.
Definition ModeIrregular : Z := Z.shiftl 1 19.

Definition ModeType : Z :=
  Z.lor ModeDir
    (Z.lor ModeSymlink
       (Z.lor ModeNamedPipe
          (Z.lor ModeSocket
             (Z.lor ModeDevice (Z.lor ModeCharDevice ModeIrregular))))).

(** What the matchers read of an [fs.FileInfo]. *)
Record FileInfo : Type := {
  Mode : Z;      (* fs.FileMode, a uint32 *)
  Size : Z;      (* int64 *)
  ModTime : Z    (* time.Time, as an instant *)
}.

(** An [fs.FS] as the matchers see it: [fs.Stat] and [fs.ReadDir], each
    returning [None] for a non-nil error. *)
Record FS : Type := {
  Stat : string -> option FileInfo;
  ReadDir : string -> option (list string)
}.

End Fs.

(** ** Package [time] *)

Module Time.
Definition t : Type := Z.
(** [a.Before(b)] *)
Definition Before (a b : t) : bool := (a <? b)%Z.
(** [a.After(b)] *)
Definition After (a b : t) : bool := (b <? a)%Z.
End Time.

(** * The matchers of match.go *)

Local Open Scope Z_scope.

(** Go's [int] on a 64-bit target: the value an arithmetic result wraps to. *)
Definition wrapInt (z : Z) : Z := (z + 2 ^ 63) mod 2 ^ 64 - 2 ^ 63.

Definition maxInt : Z := 2 ^ 63 - 1.

(** ** SuffixMatcher (lines 55-70) *)

Module SuffixMatcher.

Record t : Type := { suffixes : list string }.

Section WithTables.
Variable mapUnicodeLower : string -> string.

Definition Match (m : t) (fsys : Fs.FS) (path : string) : bool :=
  if (List.length (suffixes m) =? 0)%nat then true
  else
    let name := Strings.ToLower mapUnicodeLower (Filepath.Base path) in
    existsb (fun v => Strings.HasSuffix name v) (suffixes m).
End WithTables.

End SuffixMatcher.

(** ** FiletypeMatcher (lines 89-147) *)

Definition FileType : Type := string.

Definition FT_FILE : FileType := "f".
Definition FT_DIRECTORY : FileType := "d".
Definition FT_SYMLINK : FileType := "l".
Definition FT_EXECUTABLE : FileType := "x".
Definition FT_EMPTY : FileType := "e".
Definition FT_SOCKET : FileType := "s".
Definition FT_PIPE : FileType := "p".

Module FiletypeMatcher.

Record t : Type := { ftypes : list FileType }.

(** A [map[FileType]func() bool] as the list of its entries. *)
Definition table : Type := list (FileType * (unit -> result bool)).

Fixpoint lookup (fns : table) (ft : FileType) : option (unit -> result bool) :=
  match fns with
  | [] => None
  | (k, f) :: rest => if String.eqb k ft then Some f else lookup rest ft
  end.

(** [fns[ft]()]: a key that is absent yields the nil function, and the
    call panics. *)
Definition call (fns : table) (ft : FileType) : result bool :=
  match lookup fns ft with
  | Some f => f tt
  | None => Panicked nil_call
  end.

Definition S_IXUSR : Z := 64.  (* 0o0100 *)
Definition S_IXGRP : Z := 8.   (* 0o0010 *)
Definition S_IXOTH : Z := 1.   (* 0o0001 *)
Definition xmode : Z := Z.lor S_IXUSR (Z.lor S_IXGRP S_IXOTH).

(** The map literal of lines 114-127. *)
Definition fnsLiteral (mode : Z) : table :=
  [ (FT_FILE, fun _ => Ok (Z.land mode Fs.ModeType =? 0));
    (FT_DIRECTORY, fun _ => Ok (Z.land mode Fs.ModeDir =? 0));
    (FT_SYMLINK, fun _ => Ok (Z.land mode Fs.ModeSymlink =? 0));
    (FT_EXECUTABLE, fun _ => Ok (0 <? Z.land mode xmode));
    (FT_SOCKET, fun _ => Ok (Z.land mode Fs.ModeSocket =? 0));
    (FT_PIPE, fun _ => Ok (Z.land mode Fs.ModeNamedPipe =? 0)) ].

(** The closure stored under [FT_EMPTY], lines 128-140. *)
Definition emptyFn (fns : table) (fsys : Fs.FS) (path : string)
           (info : Fs.FileInfo) : unit -> result bool :=
  fun _ =>
    isFile <- call fns FT_FILE ;;
    if isFile then Ok (Fs.Size info =? 0)
    else
      isDir <- call fns FT_DIRECTORY ;;
      if isDir then
        match Fs.ReadDir fsys path with
        | None => Ok false
        | Some des => Ok (List.length des =? 0)%nat
        end
      else Ok false.

Definition fnsOf (fsys : Fs.FS) (path : string) (info : Fs.FileInfo) : table :=
  let fns := fnsLiteral (Fs.Mode info) in
  (FT_EMPTY, emptyFn fns fsys path info) :: fns.

(** The loop of lines 141-146. *)
Fixpoint anyType (fns : table) (fts : list FileType) : result bool :=
  match fts with
  | [] => Ok false
  | ft :: rest =>
      hit <- call fns ft ;;
      if hit then Ok true else anyType fns rest
  end.

Definition Match (m : t) (fsys : Fs.FS) (path : string) : result bool :=
  if (List.length (ftypes m) =? 0)%nat then Ok true
  else
    match Fs.Stat fsys path with
    | None => Ok false
    | Some info => anyType (fnsOf fsys path info) (ftypes m)
    end.

End FiletypeMatcher.

(** ** ChangeTimeMatcher (lines 173-198) *)

Module ChangeTimeMatcher.

(** [nil] pointers are [None]. *)
Record t : Type := { older : option Time.t; newer : option Time.t }.

Definition Match (m : t) (fsys : Fs.FS) (path : string) : result bool :=
  let ok := true in
  match older m, newer m with
  | None, None => Ok ok
  | _, _ =>
      match Fs.Stat fsys path with
      | None => Ok false
      | Some info =>
          let mtime := Fs.ModTime info in
          let ok := match older m with
                    | Some o => ok && Time.Before o mtime
                    | None => ok
                    end in
          match newer m with
          | Some n =>
              _ <- match older m with
                   | Some o => assert (Time.Before o n) "todo"
                   | None => Ok tt
                   end ;;
              Ok (ok && Time.After n mtime)
          | None => Ok ok
          end
      end
  end.

End ChangeTimeMatcher.

(** ** SizeMatcher (lines 227-250) *)

Module SizeMatcher.

Record t : Type := { min : Z; max : Z }.

Definition Match (m : t) (fsys : Fs.FS) (path : string) : result bool :=
  let ok := true in
  if (min m <? 0) && (max m <? 0) then Ok ok
  else
    match Fs.Stat fsys path with
    | None => Ok false
    | Some info =>
        let size := Fs.Size info in
        let ok := if 0 <=? min m then ok && (min m <=? size) else ok in
        if 0 <=? max m then
          _ <- assert (min m <=? max m) "todo" ;;
          Ok (ok && (size <=? max m))
        else Ok ok
    end.

End SizeMatcher.

(** ** HiddenMatcher (lines 268-277) *)

Module HiddenMatcher.

Record t : Type := { hidden : bool }.

Definition Match (m : t) (fsys : Fs.FS) (path : string) : bool :=
  if hidden m then true
  else Strings.HasPrefix (Filepath.Base path) ".".

End HiddenMatcher.

(** ** DepthMatcher (lines 322-340) *)

Module DepthMatcher.

Record t : Type := { cur : list string; min : Z; max : Z }.

(** [len(m.cur) - len(filepath.SplitList(path))] on the cleaned path. *)
Definition depth (m : t) (path : string) : Z :=
  let path := Filepath.Clean path in
  Z.of_nat (List.length (cur m))
  - Z.of_nat (List.length (Filepath.SplitList path)).

Definition Match (m : t) (fsys : Fs.FS) (path : string) : result bool :=
  let depth := depth m path in
  let ok := true in
  let ok := if 0 <=? min m then ok && (min m <=? depth) else ok in
  if 0 <=? max m then
    _ <- assert (min m <=? max m) "todo" ;;
    Ok (ok && (depth <=? max m))
  else Ok ok.

End DepthMatcher.

(** ** MaxResultMatcher (lines 359-373) *)

Module MaxResultMatcher.

Record t : Type := { count : Z; max : Z }.

(** The method has a pointer receiver and updates [m.count]: it returns
    the matcher as the call leaves it. *)
Definition Match (m : t) (fsys : Fs.FS) (path : string) : bool * t :=
  if max m <? 0 then (true, m)
  else
    let ok := count m <? max m in
    if ok then (ok, {| count := wrapInt (count m + 1); max := max m |})
    else (ok, m).

(** Successive calls on one matcher, one per path, oldest first. *)
Fixpoint run (m : t) (fsys : Fs.FS) (paths : list string) : list bool * t :=
  match paths with
  | [] => ([], m)
  | p :: rest =>
      let '(b, m1) := Match m fsys p in
      let '(bs, m2) := run m1 fsys rest in
      (b :: bs, m2)
  end.

End MaxResultMatcher.

(** ** NopMatcher, IgnoreFileMatcher, FilenameMatcher *)

Module NopMatcher.
Definition Match (fsys : Fs.FS) (path : string) : bool := true.
End NopMatcher.

Module IgnoreFileMatcher.
Definition Match (fsys : Fs.FS) (path : string) : bool := true.
End IgnoreFileMatcher.

Module FilenameMatcher.

(** [type FilenameMatchMode int] and its constants (lines 375-382). *)
Definition FilenameMatchMode : Type := Z.
Definition FMM_EXACT : FilenameMatchMode := 0.
Definition FMM_STR : FilenameMatchMode := 1.
Definition FMM_GLOB : FilenameMatchMode := 2.
Definition FMM_RE : FilenameMatchMode := 3.

(** Lines 384-389.  A compiled pattern is held by the expression it was
    compiled from; the nil pointer is [None]. *)
Record t : Type := {
  rawPattern : string;
  compiledPattern : option string;
  mode : FilenameMatchMode;
  ignoreCase : bool
}.

(** Line 392: the method panics before anything else. *)
Definition Match (fsys : Fs.FS) (path : string) : result bool :=
  Panicked "todo".
End FilenameMatcher.

(** ** Options and constructors *)

(** The matcher behind a [Matcher] interface value, one constructor for
    each matcher type of the package, as the type assertions on the pointer
    types ([SuffixMatcher] and the like) inspect it.  A composite is held by
    the matchers registered in it. *)
#[warnings="-register-all"]
Inductive MatcherValue : Type :=
| OfSuffix (sm : SuffixMatcher.t)
| OfFiletype (ftm : FiletypeMatcher.t)
| OfChangeTime (ctm : ChangeTimeMatcher.t)
| OfSize (sm : SizeMatcher.t)
| OfHidden (hm : HiddenMatcher.t)
| OfDepth (dm : DepthMatcher.t)
| OfMaxResult (mrm : MaxResultMatcher.t)
| OfNop
| OfIgnoreFile
| OfFilename (fm : FilenameMatcher.t)
| OfMulti (registered : list MatcherValue).

(** [type Option func(Matcher)]: the function returns the matcher as the
    call leaves it. *)
Definition Option : Type := MatcherValue -> MatcherValue.

Definition applyOptions (opts : list Option) (m : MatcherValue) : MatcherValue :=
  fold_left (fun m opt => opt m) opts m.

Definition WithSuffixes (suffixes : list string) : Option :=
  fun m =>
    match m with
    | OfSuffix sm => OfSuffix {| SuffixMatcher.suffixes := suffixes |}
    | _ => m
    end.

Definition WithFileTypes (ftypes : list FileType) : Option :=
  fun m =>
    match m with
    | OfFiletype ftm => OfFiletype {| FiletypeMatcher.ftypes := ftypes |}
    | _ => m
    end.

Definition WithTimeOlder (t : option Time.t) : Option :=
  fun m =>
    match m with
    | OfChangeTime ctm =>
        OfChangeTime {| ChangeTimeMatcher.older := t;
                        ChangeTimeMatcher.newer := ChangeTimeMatcher.newer ctm |}
    | _ => m
    end.

Definition WithTimeNewer (t : option Time.t) : Option :=
  fun m =>
    match m with
    | OfChangeTime ctm =>
        OfChangeTime {| ChangeTimeMatcher.older := ChangeTimeMatcher.older ctm;
                        ChangeTimeMatcher.newer := t |}
    | _ => m
    end.

Definition WithMinSize (min : Z) : Option :=
  fun m =>
    match m with
    | OfSize sm =>
        OfSize {| SizeMatcher.min := min; SizeMatcher.max := SizeMatcher.max sm |}
    | _ => m
    end.

Definition WithMaxSize (max : Z) : Option :=
  fun m =>
    match m with
    | OfSize sm =>
        OfSize {| SizeMatcher.min := SizeMatcher.min sm; SizeMatcher.max := max |}
    | _ => m
    end.

Definition WithHidden (hidden : bool) : Option :=
  fun m =>
    match m with
    | OfHidden hm => OfHidden {| HiddenMatcher.hidden := hidden |}
    | _ => m
    end.

Definition WithMaxDepth (max : Z) : Option :=
  fun m =>
    match m with
    | OfDepth dm =>
        OfDepth {| DepthMatcher.cur := DepthMatcher.cur dm;
                   DepthMatcher.min := DepthMatcher.min dm;
                   DepthMatcher.max := max |}
    | _ => m
    end.

Definition WithMinDepth (min : Z) : Option :=
  fun m =>
    match m with
    | OfDepth dm =>
        OfDepth {| DepthMatcher.cur := DepthMatcher.cur dm;
                   DepthMatcher.min := min;
                   DepthMatcher.max := DepthMatcher.max dm |}
    | _ => m
    end.

Definition WithExactDepth (exact : Z) : Option :=
  fun m =>
    match m with
    | OfDepth dm =>
        OfDepth {| DepthMatcher.cur := DepthMatcher.cur dm;
                   DepthMatcher.min := exact;
                   DepthMatcher.max := exact |}
    | _ => m
    end.

Definition WithMaxResult (max : Z) : Option :=
  fun m =>
    match m with
    | OfMaxResult mrm =>
        OfMaxResult {| MaxResultMatcher.count := MaxResultMatcher.count mrm;
                       MaxResultMatcher.max := max |}
    | _ => m
    end.

(** Each constructor builds its matcher, applies the options to it and
    returns it.  An option cannot change the type of the matcher it is
    handed, so the last branch of each [match] is never taken by the options
    above; it returns the matcher as built. *)

Definition NewSuffixMatcher (opts : list Option) : SuffixMatcher.t :=
  let sm := {| SuffixMatcher.suffixes := [] |} in
  match applyOptions opts (OfSuffix sm) with
  | OfSuffix sm' => sm'
  | _ => sm
  end.

Definition NewFiletypeMatcher (opts : list Option) : FiletypeMatcher.t :=
  let ftm := {| FiletypeMatcher.ftypes := [] |} in
  match applyOptions opts (OfFiletype ftm) with
  | OfFiletype ftm' => ftm'
  | _ => ftm
  end.

Definition NewChangeTimeMatcher (opts : list Option) : ChangeTimeMatcher.t :=
  let ctm := {| ChangeTimeMatcher.older := None;
                ChangeTimeMatcher.newer := None |} in
  match applyOptions opts (OfChangeTime ctm) with
  | OfChangeTime ctm' => ctm'
  | _ => ctm
  end.

Definition NewSizeMatcher (opts : list Option) : SizeMatcher.t :=
  let sm := {| SizeMatcher.min := -1; SizeMatcher.max := -1 |} in
  match applyOptions opts (OfSize sm) with
  | OfSize sm' => sm'
  | _ => sm
  end.

Definition NewHiddenMatcher (opts : list Option) : HiddenMatcher.t :=
  let hm := {| HiddenMatcher.hidden := false |} in
  match applyOptions opts (OfHidden hm) with
  | OfHidden hm' => hm'
  | _ => hm
  end.

Definition NewDepthMatcher (cur : string) (opts : list Option) : DepthMatcher.t :=
  let dm := {| DepthMatcher.cur := Filepath.SplitList (Filepath.Clean cur);
               DepthMatcher.min := -1;
               DepthMatcher.max := -1 |} in
  match applyOptions opts (OfDepth dm) with
  | OfDepth dm' => dm'
  | _ => dm
  end.

Definition NewMaxResultMatcher (opts : list Option) : MaxResultMatcher.t :=
  let mrm := {| MaxResultMatcher.count := 0; MaxResultMatcher.max := -1 |} in
  match applyOptions opts (OfMaxResult mrm) with
  | OfMaxResult mrm' => mrm'
  | _ => mrm
  end.

(** ** The [Matcher] interface and MultiMatcher (lines 11-36) *)

Section Interface.

(** The memory the registered matchers live in.  Matchers are held by
    pointer, so two entries of a composite may be one object; a method
    reads and writes this memory rather than a copy of its receiver. *)
Variable W : Type.

(** A value of the interface: its [Match] method, which may update the
    memory and may panic. *)
Definition Matcher : Type := Fs.FS -> string -> W -> result (bool * W).

Record MultiMatcher : Type := { ms : list Matcher }.

(** [m.ms = append(m.ms, ms...)] *)
Definition Add (m : MultiMatcher) (new : list Matcher) : MultiMatcher :=
  {| ms := ms m ++ new |}.

(** The loop of lines 30-35 over the matchers still to run. *)
Fixpoint matchAll (vs : list Matcher) (fsys : Fs.FS) (path : string) (w : W)
  : result (bool * W) :=
  match vs with
  | [] => Ok (true, w)
  | v :: rest =>
      r <- v fsys path w ;;
      if negb (fst r) then Ok (false, snd r)
      else matchAll rest fsys path (snd r)
  end.

Definition Match (m : MultiMatcher) : Matcher :=
  fun fsys path w => matchAll (ms m) fsys path w.

(** The calls the loop makes when no matcher stops it: each matcher of
    [vs] in turn, on the memory the one before left, and each returns
    true. *)
Inductive allTrue (fsys : Fs.FS) (path : string) : list Matcher -> W -> W -> Prop :=
| allTrue_nil w : allTrue fsys path [] w w
| allTrue_cons v rest w w1 w2 :
    v fsys path w = Ok (true, w1) ->
    allTrue fsys path rest w1 w2 ->
    allTrue fsys path (v :: rest) w w2.

(** Lifting of the stateless matchers to the interface. *)
Definition pureMatcher (f : Fs.FS -> string -> bool) : Matcher :=
  fun fsys path w => Ok (f fsys path, w).

Definition fallibleMatcher (f : Fs.FS -> string -> result bool) : Matcher :=
  fun fsys path w => b <- f fsys path ;; Ok (b, w).

End Interface.

Arguments ms {W} m.
Arguments Add {W} m new.
Arguments matchAll {W} vs fsys path w.
Arguments Match {W} m fsys path w.
Arguments allTrue {W} fsys path _ _ _.
Arguments pureMatcher {W} f fsys path w.
Arguments fallibleMatcher {W} f fsys path w.

(** A [*MaxResultMatcher] as an interface value, in a memory that holds
    counters by address. *)
Definition counterMatcher (addr : nat) : Matcher (list MaxResultMatcher.t) :=
  fun fsys path w =>
    match nth_error w addr with
    | None => Panicked nil_call
    | Some m =>
        let '(b, m') := MaxResultMatcher.Match m fsys path in
        Ok (b, firstn addr w ++ m' :: skipn (S addr) w)
    end.

(** ** Vocabulary of the statements and sample inputs *)

Local Open Scope string_scope.
Local Open Scope Z_scope.

(** [name] ends with [s]. *)
Definition endsWith (name s : string) : Prop := exists front, name = front ++ s.

(** [name] begins with [s]. *)
Definition beginsWith (name s : string) : Prop := exists back, name = s ++ back.

(** [s] has a byte equal to [c]. *)
Definition hasByte (c : ascii) (s : string) : bool :=
  existsb (Ascii.eqb c) (Strings.bytes s).

(** The lowering of ASCII capitals byte by byte: what the Unicode mapping
    does on every string whose other characters have no case. *)
Definition lowerASCIIOnly (s : string) : string :=
  Strings.of_bytes (map Strings.lowerByte (Strings.bytes s)).

(** The construction-time invariant: when both cutoffs are set, [older]
    comes strictly before [newer]. *)
Definition ChangeTime_ordered (m : ChangeTimeMatcher.t) : bool :=
  match ChangeTimeMatcher.older m, ChangeTimeMatcher.newer m with
  | Some o, Some n => Time.Before o n
  | _, _ => true
  end.

(** The precondition on the bounds: when both are set, [min <= max]. *)
Definition Size_ordered (m : SizeMatcher.t) : bool :=
  if (0 <=? SizeMatcher.min m) && (0 <=? SizeMatcher.max m)
  then SizeMatcher.min m <=? SizeMatcher.max m
  else true.

(** A file system with one directory, [/r/d], that has no entries, and one
    regular file, [/r/f], of 12 bytes. *)
Definition sampleFS : Fs.FS :=
  {| Fs.Stat := fun p =>
       if String.eqb p "/r/d" then
         Some {| Fs.Mode := Z.lor Fs.ModeDir 493; Fs.Size := 4096; Fs.ModTime := 15 |}
       else if String.eqb p "/r/f" then
         Some {| Fs.Mode := 420; Fs.Size := 12; Fs.ModTime := 15 |}
       else None;
     Fs.ReadDir := fun p => if String.eqb p "/r/d" then Some [] else None |}.

(** A composite of the suffix matcher for [".go"] followed by a result cap
    of 1 held at address 0, and the same with a matcher that always panics
    registered last. *)
Definition goThenCap (last : list (Matcher (list MaxResultMatcher.t)))
  : MultiMatcher (list MaxResultMatcher.t) :=
  Add (Add {| ms := [] |}
           [pureMatcher (SuffixMatcher.Match lowerASCIIOnly
                           (NewSuffixMatcher [WithSuffixes [".go"]]));
            counterMatcher 0])
      last.

(** The calls of the package's option constructors, and the option each
    call returns. *)
Inductive OptionCall : Type :=
| CallWithSuffixes (suffixes : list string)
| CallWithFileTypes (ftypes : list FileType)
| CallWithTimeOlder (t : option Time.t)
| CallWithTimeNewer (t : option Time.t)
| CallWithMinSize (min : Z)
| CallWithMaxSize (max : Z)
| CallWithHidden (hidden : bool)
| CallWithMaxDepth (max : Z)
| CallWithMinDepth (min : Z)
| CallWithExactDepth (exact : Z)
| CallWithMaxResult (max : Z).

Definition toOption (c : OptionCall) : Option :=
  match c with
  | CallWithSuffixes suffixes => WithSuffixes suffixes
  | CallWithFileTypes ftypes => WithFileTypes ftypes
  | CallWithTimeOlder t => WithTimeOlder t
  | CallWithTimeNewer t => WithTimeNewer t
  | CallWithMinSize min => WithMinSize min
  | CallWithMaxSize max => WithMaxSize max
  | CallWithHidden hidden => WithHidden hidden
  | CallWithMaxDepth max => WithMaxDepth max
  | CallWithMinDepth min => WithMinDepth min
  | CallWithExactDepth exact => WithExactDepth exact
  | CallWithMaxResult max => WithMaxResult max
  end.

(** The matcher types of the package. *)
Inductive Kind : Type :=
| KSuffix | KFiletype | KChangeTime | KSize | KHidden | KDepth | KMaxResult
| KNop | KIgnoreFile | KFilename | KMulti.

Definition Kind_eqb (a b : Kind) : bool :=
  match a, b with
  | KSuffix, KSuffix | KFiletype, KFiletype | KChangeTime, KChangeTime
  | KSize, KSize | KHidden, KHidden | KDepth, KDepth
  | KMaxResult, KMaxResult
  | KNop, KNop | KIgnoreFile, KIgnoreFile | KFilename, KFilename
  | KMulti, KMulti => true
  | _, _ => false
  end.

(** The type of a matcher value. *)
Definition kindOf (m : MatcherValue) : Kind :=
  match m with
  | OfSuffix _ => KSuffix
  | OfFiletype _ => KFiletype
  | OfChangeTime _ => KChangeTime
  | OfSize _ => KSize
  | OfHidden _ => KHidden
  | OfDepth _ => KDepth
  | OfMaxResult _ => KMaxResult
  | OfNop => KNop
  | OfIgnoreFile => KIgnoreFile
  | OfFilename _ => KFilename
  | OfMulti _ => KMulti
  end.

(** The type an option's type assertion asks for. *)
Definition targetOf (c : OptionCall) : Kind :=
  match c with
  | CallWithSuffixes _ => KSuffix
  | CallWithFileTypes _ => KFiletype
  | CallWithTimeOlder _ | CallWithTimeNewer _ => KChangeTime
  | CallWithMinSize _ | CallWithMaxSize _ => KSize
  | CallWithHidden _ => KHidden
  | CallWithMaxDepth _ | CallWithMinDepth _ | CallWithExactDepth _ => KDepth
  | CallWithMaxResult _ => KMaxResult
  end.

(** The options of [cs] written for matchers of type [k]. *)
Definition optionsFor (k : Kind) (cs : list OptionCall) : list OptionCall :=
  filter (fun c => Kind_eqb (targetOf c) k) cs.

(** The seven tags the map of [FiletypeMatcher.Match] has an entry for. *)
Definition knownTypes : list FileType :=
  [FT_FILE; FT_DIRECTORY; FT_SYMLINK; FT_EXECUTABLE; FT_EMPTY; FT_SOCKET; FT_PIPE].

Definition knownType (ft : FileType) : bool := existsb (String.eqb ft) knownTypes.

(** The number of bytes of [s] equal to [c]. *)
Definition countByte (c : ascii) (s : string) : nat :=
  List.length (filter (Ascii.eqb c) (Strings.bytes s)).

(** The number of calls that returned true. *)
Definition countTrue (bs : list bool) : nat := List.length (filter (fun b => b) bs).

(** [dir/name] *)
Definition joinPath (dir name : string) : string :=
  dir ++ String Filepath.Separator name.

(** Spec side: the lower-case of a letter, read off the two alphabets; any
    other byte is its own lower-case. *)
Definition upperAlphabet : string := "ABCDEFGHIJKLMNOPQRSTUVWXYZ".
Definition lowerAlphabet : string := "abcdefghijklmnopqrstuvwxyz".

Fixpoint translate (from to : string) (c : ascii) : ascii :=
  match from, to with
  | String f from', String t to' =>
      if Ascii.eqb c f then t else translate from' to' c
  | _, _ => c
  end.

Definition lowerCaseOf (c : ascii) : ascii := translate upperAlphabet lowerAlphabet c.

(** Spec side: [s] lower-cased, letter by letter. *)
Fixpoint lowerCased (s : string) : string :=
  match s with
  | EmptyString => EmptyString
  | String c s' => String (lowerCaseOf c) (lowerCased s')
  end.

(** Every byte of [s] is below 128. *)
Definition asciiOnly (s : string) : Prop :=
  forall c, In c (list_ascii_of_string s) -> (N_of_ascii c < 128)%N.

(** Some byte of [s] is 128 or above. *)
Definition hasNonASCII (s : string) : Prop :=
  exists c, In c (list_ascii_of_string s) /\ (128 <= N_of_ascii c)%N.

(** [s] is made of slashes only. *)
Definition onlySlashes (s : string) : Prop :=
  forall c, In c (list_ascii_of_string s) -> c = "/"%char.

(** The UTF-8 encoding (E2 84 82) of U+2102, DOUBLE-STRUCK CAPITAL C: an
    uppercase letter (general category Lu) that has no lower-case mapping, so
    that [unicode.ToLower] returns it unchanged. *)
Definition doubleStruckCapitalC : string :=
  String "226" (String "132" (String "130" EmptyString)).

(** * Properties *)

(** ** The library model on sample inputs *)

Example Base_git : Filepath.Base "/r/.git" = ".git".
Proof. reflexivity. Qed.

Example Base_trailing : Filepath.Base "/r/a//" = "a".
Proof. reflexivity. Qed.

Example Base_root : Filepath.Base "///" = "/".
Proof. reflexivity. Qed.

Example Clean_ex1 : Filepath.Clean "/r/x/../y/./z//" = "/r/y/z".
Proof. reflexivity. Qed.

Example Clean_ex2 : Filepath.Clean "../../a/../../b" = "../../../b".
Proof. reflexivity. Qed.

Example Clean_ex3 : Filepath.Clean "/../a" = "/a".
Proof. reflexivity. Qed.

Example Clean_ex4 : Filepath.Clean "a/.." = ".".
Proof. reflexivity. Qed.

Example SplitList_path : Filepath.SplitList "/r/x/y" = ["/r/x/y"].
Proof. reflexivity. Qed.

Example SplitList_PATH : Filepath.SplitList "/bin:/usr/bin" = ["/bin"; "/usr/bin"].
Proof. reflexivity. Qed.

(** ** Byte strings *)

Section StringFacts.

Local Open Scope nat_scope.
Local Open Scope string_scope.

Lemma length_append (a b : string) :
  String.length (a ++ b) = String.length a + String.length b.
Proof. induction a as [|c a IH]; simpl; [reflexivity | now rewrite IH]. Qed.

Lemma substring_0_length (s : string) : substring 0 (String.length s) s = s.
Proof.
  induction s as [|c s IH]; simpl; [reflexivity | now rewrite IH].
Qed.

Lemma substring_skip_append (a b : string) (m : nat) :
  substring (String.length a) m (a ++ b) = substring 0 m b.
Proof. induction a as [|c a IH]; simpl; auto. Qed.

Lemma substring_0_append (a b : string) :
  substring 0 (String.length a) (a ++ b) = a.
Proof. induction a as [|c a IH]; simpl; [now destruct b | now rewrite IH]. Qed.

(** A string is its first [n] bytes followed by the rest. *)
Lemma substring_split (s : string) (n : nat) :
  n <= String.length s ->
  s = substring 0 n s ++ substring n (String.length s - n) s.
Proof.
  revert n; induction s as [|c s IH]; intros [|n] Hn; simpl in *.
  - reflexivity.
  - lia.
  - now rewrite substring_0_length.
  - rewrite <- IH by lia. reflexivity.
Qed.

(** What [strings.HasSuffix] decides. *)
Lemma HasSuffix_spec (s suffix : string) :
  Strings.HasSuffix s suffix = true <-> exists front, s = front ++ suffix.
Proof.
  unfold Strings.HasSuffix. rewrite andb_true_iff, Nat.leb_le, String.eqb_eq.
  split.
  - intros [Hlen Hsub].
    exists (substring 0 (String.length s - String.length suffix) s).
    rewrite (substring_split s (String.length s - String.length suffix)) at 1 by lia.
    f_equal. rewrite <- Hsub at 3. f_equal. lia.
  - intros [front ->]. rewrite length_append. split; [lia|].
    replace (String.length front + String.length suffix - String.length suffix)
      with (String.length front) by lia.
    rewrite substring_skip_append. apply substring_0_length.
Qed.

(** What [strings.HasPrefix] decides. *)
Lemma HasPrefix_spec (s prefix : string) :
  Strings.HasPrefix s prefix = true <-> exists back, s = prefix ++ back.
Proof.
  unfold Strings.HasPrefix. rewrite andb_true_iff, Nat.leb_le, String.eqb_eq.
  split.
  - intros [Hlen Hsub].
    exists (substring (String.length prefix)
                      (String.length s - String.length prefix) s).
    rewrite <- Hsub at 1. apply substring_split. exact Hlen.
  - intros [back ->]. rewrite length_append. split; [lia|].
    apply substring_0_append.
Qed.

Lemma bytes_append (a b : string) :
  Strings.bytes (a ++ b) = (Strings.bytes a ++ Strings.bytes b)%list.
Proof.
  unfold Strings.bytes. induction a as [|c a IH]; simpl; [reflexivity | now rewrite IH].
Qed.

Lemma hasUpper_append (a b : string) :
  Strings.hasUpper (a ++ b) = Strings.hasUpper a || Strings.hasUpper b.
Proof. unfold Strings.hasUpper. rewrite bytes_append. apply existsb_app. Qed.

Lemma lowerByte_not_upper (c : ascii) :
  Strings.isUpperByte (Strings.lowerByte c) = false.
Proof.
  destruct c as [[|] [|] [|] [|] [|] [|] [|] [|]]; reflexivity.
Qed.

Lemma lowered_bytes_no_upper (s : string) :
  Strings.hasUpper (Strings.of_bytes (map Strings.lowerByte (Strings.bytes s))) = false.
Proof.
  unfold Strings.hasUpper, Strings.bytes, Strings.of_bytes.
  rewrite list_ascii_of_string_of_list_ascii.
  induction (list_ascii_of_string s) as [|c l IH]; simpl; [reflexivity|].
  now rewrite lowerByte_not_upper, IH.
Qed.

End StringFacts.

(** ** Base names *)

Lemma takeWhile_app_stop {A} (f : A -> bool) (l r : list A) (x : A) :
  Forall (fun y => f y = true) l -> f x = false ->
  Filepath.takeWhile f (l ++ x :: r)%list = l.
Proof.
  intros Hl Hx. induction Hl as [|y l Hy _ IH]; simpl.
  - now rewrite Hx.
  - now rewrite Hy, IH.
Qed.

Lemma takeWhile_all {A} (f : A -> bool) (l : list A) :
  Forall (fun y => f y = true) l -> Filepath.takeWhile f l = l.
Proof.
  intros Hl. induction Hl as [|y l Hy _ IH]; simpl; [reflexivity|].
  now rewrite Hy, IH.
Qed.

Lemma dropWhile_head {A} (f : A -> bool) (l : list A) :
  Forall (fun y => f y = false) l -> Filepath.dropWhile f l = l.
Proof. intros Hl. destruct Hl as [|y l Hy _]; simpl; [reflexivity | now rewrite Hy]. Qed.

Lemma plain_name_bytes (name : string) :
  hasByte Filepath.Separator name = false ->
  Forall (fun c => Filepath.IsPathSeparator c = false) (Strings.bytes name).
Proof.
  unfold hasByte, Filepath.IsPathSeparator. intros H. apply Forall_forall.
  intros c Hin. rewrite Ascii.eqb_sym.
  destruct (Ascii.eqb Filepath.Separator c) eqn:Hc; [|reflexivity].
  assert (existsb (Ascii.eqb Filepath.Separator) (Strings.bytes name) = true);
    [|congruence].
  apply existsb_exists. exists c. split; assumption.
Qed.

Lemma bytes_not_nil (name : string) : name <> "" -> Strings.bytes name <> [].
Proof. destruct name; [congruence | discriminate]. Qed.

(** A name with no separator is its own base name. *)
Lemma Base_plain (name : string) :
  name <> "" -> hasByte Filepath.Separator name = false ->
  Filepath.Base name = name.
Proof.
  intros Hne Hplain. pose proof (plain_name_bytes name Hplain) as Hb.
  unfold Filepath.Base. destruct name as [|c0 rest] eqn:Hname; [congruence|].
  rewrite <- Hname in *. clear Hname c0 rest.
  rewrite dropWhile_head by (apply Forall_rev; exact Hb).
  rewrite takeWhile_all.
  - rewrite rev_involutive.
    destruct (Strings.bytes name) eqn:Hbytes.
    + now apply bytes_not_nil in Hne.
    + rewrite <- Hbytes. apply string_of_list_ascii_of_string.
  - apply Forall_rev. eapply Forall_impl; [|exact Hb].
    intros c Hc. simpl in Hc. now rewrite Hc.
Qed.

(** The base name of [dir/name] is [name]. *)
Lemma Base_joinPath (dir name : string) :
  name <> "" -> hasByte Filepath.Separator name = false ->
  Filepath.Base (joinPath dir name) = name.
Proof.
  intros Hne Hplain. pose proof (plain_name_bytes name Hplain) as Hb.
  unfold Filepath.Base, joinPath.
  destruct (dir ++ String Filepath.Separator name) as [|c0 rest] eqn:Hpath.
  { destruct dir; discriminate. }
  rewrite <- Hpath. clear Hpath c0 rest.
  rewrite bytes_append. change (Strings.bytes (String Filepath.Separator name))
    with (Filepath.Separator :: Strings.bytes name).
  rewrite rev_app_distr. simpl rev. rewrite <- app_assoc. simpl app.
  assert (Hrev : Forall (fun c => Filepath.IsPathSeparator c = false)
                        (rev (Strings.bytes name))) by (apply Forall_rev; exact Hb).
  assert (Hnn : rev (Strings.bytes name) <> []).
  { intros H. apply (f_equal (@rev ascii)) in H. rewrite rev_involutive in H.
    now apply bytes_not_nil in Hne. }
  destruct (rev (Strings.bytes name)) as [|c l] eqn:Hr; [congruence|].
  inversion Hrev as [|? ? Hc Hl]; subst.
  cbn [app Filepath.dropWhile]. rewrite Hc.
  change (c :: (l ++ Filepath.Separator :: rev (Strings.bytes dir))%list)
    with ((c :: l) ++ Filepath.Separator :: rev (Strings.bytes dir))%list.
  rewrite takeWhile_app_stop.
  - rewrite <- Hr, rev_involutive.
    destruct (Strings.bytes name) eqn:Hbytes.
    + now apply bytes_not_nil in Hne.
    + rewrite <- Hbytes. apply string_of_list_ascii_of_string.
  - constructor; [now rewrite Hc|].
    eapply Forall_impl; [|exact Hl]. intros x Hx. simpl in Hx. now rewrite Hx.
  - reflexivity.
Qed.

Lemma dropWhile_app_all {A} (f : A -> bool) (l r : list A) :
  Forall (fun y => f y = true) l ->
  Filepath.dropWhile f (l ++ r)%list = Filepath.dropWhile f r.
Proof.
  intros Hl. induction Hl as [|y l Hy _ IH]; simpl; [reflexivity|].
  now rewrite Hy.
Qed.

(** The base name of [dir/name] followed by any number of slashes is
    [name]. *)
Lemma Base_joinPath_trailing (dir name slashes : string) :
  name <> "" -> hasByte Filepath.Separator name = false -> onlySlashes slashes ->
  Filepath.Base (joinPath dir name ++ slashes) = name.
Proof.
  intros Hne Hplain Hsl. pose proof (plain_name_bytes name Hplain) as Hb.
  unfold Filepath.Base, joinPath.
  destruct ((dir ++ String Filepath.Separator name) ++ slashes)
    as [|c0 rest] eqn:Hpath.
  { destruct dir; discriminate. }
  rewrite <- Hpath. clear Hpath c0 rest.
  rewrite !bytes_append. change (Strings.bytes (String Filepath.Separator name))
    with (Filepath.Separator :: Strings.bytes name).
  rewrite !rev_app_distr. simpl rev. rewrite <- !app_assoc. simpl app.
  rewrite dropWhile_app_all.
  2:{ apply Forall_rev, Forall_forall. intros c Hin.
      rewrite (Hsl c Hin). reflexivity. }
  assert (Hrev : Forall (fun c => Filepath.IsPathSeparator c = false)
                        (rev (Strings.bytes name))) by (apply Forall_rev; exact Hb).
  assert (Hnn : rev (Strings.bytes name) <> []).
  { intros H. apply (f_equal (@rev ascii)) in H. rewrite rev_involutive in H.
    now apply bytes_not_nil in Hne. }
  destruct (rev (Strings.bytes name)) as [|c l] eqn:Hr; [congruence|].
  inversion Hrev as [|? ? Hc Hl]; subst.
  cbn [app Filepath.dropWhile]. rewrite Hc.
  change (c :: (l ++ Filepath.Separator :: rev (Strings.bytes dir))%list)
    with ((c :: l) ++ Filepath.Separator :: rev (Strings.bytes dir))%list.
  rewrite takeWhile_app_stop.
  - rewrite <- Hr, rev_involutive.
    destruct (Strings.bytes name) eqn:Hbytes.
    + now apply bytes_not_nil in Hne.
    + rewrite <- Hbytes. apply string_of_list_ascii_of_string.
  - constructor; [now rewrite Hc|].
    eapply Forall_impl; [|exact Hl]. intros x Hx. simpl in Hx. now rewrite Hx.
  - reflexivity.
Qed.

(** ** Lower case *)

(** The byte arithmetic of [strings.ToLower] gives the lower-case letter. *)
Lemma lowerByte_lowerCaseOf (c : ascii) : Strings.lowerByte c = lowerCaseOf c.
Proof.
  destruct c as [[|] [|] [|] [|] [|] [|] [|] [|]]; reflexivity.
Qed.

Lemma lowered_bytes_lowerCased (s : string) :
  Strings.of_bytes (map Strings.lowerByte (Strings.bytes s)) = lowerCased s.
Proof.
  unfold Strings.of_bytes, Strings.bytes.
  induction s as [|c s IH]; simpl; [reflexivity|].
  now rewrite IH, lowerByte_lowerCaseOf.
Qed.

Lemma isASCII_asciiOnly (s : string) : asciiOnly s -> Strings.isASCII s = true.
Proof.
  unfold asciiOnly, Strings.isASCII, Strings.bytes. intros H.
  apply forallb_forall. intros c Hin. apply N.ltb_lt. now apply H.
Qed.

Lemma isASCII_hasNonASCII (s : string) : hasNonASCII s -> Strings.isASCII s = false.
Proof.
  unfold hasNonASCII, Strings.isASCII, Strings.bytes. intros (c & Hin & Hc).
  apply not_true_is_false. intros H.
  rewrite forallb_forall in H. specialize (H c Hin).
  apply N.ltb_lt in H. lia.
Qed.

(** ** SuffixMatcher *)

Lemma NewSuffixMatcher_WithSuffixes (S : list string) :
  SuffixMatcher.suffixes (NewSuffixMatcher [WithSuffixes S]) = S.
Proof. reflexivity. Qed.

Section SuffixProps.

Variable mapUnicodeLower : string -> string.

Local Abbreviation lower := (Strings.ToLower mapUnicodeLower).
Local Abbreviation Match := (SuffixMatcher.Match mapUnicodeLower).

Lemma SuffixMatcher_empty (m : SuffixMatcher.t) fsys path :
  SuffixMatcher.suffixes m = [] -> Match m fsys path = true.
Proof. unfold Match, SuffixMatcher.Match. now intros ->. Qed.

Lemma SuffixMatcher_nonempty (m : SuffixMatcher.t) fsys path :
  SuffixMatcher.suffixes m <> [] ->
  Match m fsys path
  = existsb (Strings.HasSuffix (lower (Filepath.Base path)))
            (SuffixMatcher.suffixes m).
Proof.
  unfold SuffixMatcher.Match.
  destruct (SuffixMatcher.suffixes m); [congruence | reflexivity].
Qed.

Lemma SuffixMatcher_general (m : SuffixMatcher.t) (fsys : Fs.FS) (p : string) :
  Match m fsys p = true <->
  SuffixMatcher.suffixes m = [] \/
  exists s, In s (SuffixMatcher.suffixes m)
            /\ endsWith (lower (Filepath.Base p)) s.
Proof.
  destruct (SuffixMatcher.suffixes m) as [|s0 S] eqn:HS.
  - rewrite SuffixMatcher_empty by exact HS. tauto.
  - rewrite SuffixMatcher_nonempty by (rewrite HS; discriminate).
    rewrite HS, existsb_exists. split.
    + intros (s & Hin & Hs). right. exists s. split; [exact Hin|].
      now apply HasSuffix_spec.
    + intros [Habs | (s & Hin & Hs)]; [discriminate|].
      exists s. split; [exact Hin|]. now apply HasSuffix_spec.
Qed.

(** C7. For every suffix set S and path p, the suffix matcher returns true
    iff S is empty or some s in S is a plain string suffix of the
    lower-cased base name of p.  The base name is the last element of the
    path, trailing slashes dropped: for a path [dir/name] followed by any
    number of slashes, the string compared is [name] lower-cased letter by
    letter when [name] is ASCII, and [name] under the Unicode lower-casing
    otherwise.  With S = [".go"], [/r/a/main.go], [/r/a/Main.GO] and
    [/r/a.go///] match; [/r/a/main.txt] and [/r/x.go/readme] do not. *)
Theorem SuffixMatcher_Match_iff :
  (forall (m : SuffixMatcher.t) (fsys : Fs.FS) (p : string),
      Match m fsys p = true <->
      SuffixMatcher.suffixes m = [] \/
      exists s, In s (SuffixMatcher.suffixes m)
                /\ endsWith (lower (Filepath.Base p)) s)
  /\ (forall (m : SuffixMatcher.t) (fsys : Fs.FS) (dir name slashes : string),
         name <> "" -> hasByte "/" name = false -> onlySlashes slashes ->
         (asciiOnly name ->
          (Match m fsys (joinPath dir name ++ slashes) = true <->
           SuffixMatcher.suffixes m = [] \/
           exists s, In s (SuffixMatcher.suffixes m)
                     /\ endsWith (lowerCased name) s))
         /\ (hasNonASCII name ->
             (Match m fsys (joinPath dir name ++ slashes) = true <->
              SuffixMatcher.suffixes m = [] \/
              exists s, In s (SuffixMatcher.suffixes m)
                        /\ endsWith (mapUnicodeLower name) s)))
  /\ (forall fsys : Fs.FS,
         Match (NewSuffixMatcher [WithSuffixes [".go"]]) fsys "/r/a/main.go" = true
         /\ Match (NewSuffixMatcher [WithSuffixes [".go"]]) fsys "/r/a/main.txt" = false
         /\ Match (NewSuffixMatcher [WithSuffixes [".go"]]) fsys "/r/a/Main.GO" = true
         /\ Match (NewSuffixMatcher [WithSuffixes [".go"]]) fsys "/r/a.go///" = true
         /\ Match (NewSuffixMatcher [WithSuffixes [".go"]]) fsys "/r/x.go/readme"
            = false).
Proof.
  split; [exact SuffixMatcher_general|].
  split; [| intros fsys; repeat split; reflexivity].
  intros m fsys dir name slashes Hne Hplain Hsl.
  pose proof (SuffixMatcher_general m fsys (joinPath dir name ++ slashes)) as Hgen.
  rewrite (Base_joinPath_trailing dir name slashes Hne Hplain Hsl) in Hgen.
  unfold Strings.ToLower in Hgen. split.
  - intros Hascii.
    rewrite (isASCII_asciiOnly name Hascii), lowered_bytes_lowerCased in Hgen.
    exact Hgen.
  - intros Hnon. rewrite (isASCII_hasNonASCII name Hnon) in Hgen. exact Hgen.
Qed.

(** The Unicode mapping never produces one of the bytes ['A'..'Z']: no
    character lower-cases to an ASCII capital, and the bytes of a
    multi-byte UTF-8 sequence are all above 127. *)
Hypothesis mapUnicodeLower_no_upper :
  forall s, Strings.hasUpper (mapUnicodeLower s) = false.

Lemma ToLower_no_upper (s : string) : Strings.hasUpper (lower s) = false.
Proof.
  unfold Strings.ToLower. destruct (Strings.isASCII s).
  - apply lowered_bytes_no_upper.
  - apply mapUnicodeLower_no_upper.
Qed.

Lemma upper_suffix_never_matches (v p : string) :
  Strings.hasUpper v = true ->
  Strings.HasSuffix (lower (Filepath.Base p)) v = false.
Proof.
  intros Hv. apply not_true_is_false. intros H.
  apply HasSuffix_spec in H. destruct H as [front Hfront].
  pose proof (ToLower_no_upper (Filepath.Base p)) as Hlow.
  rewrite Hfront, hasUpper_append, Hv, orb_true_r in Hlow. discriminate.
Qed.


End SuffixProps.


Lemma SuffixMatcher_Match_iff_witness :
  SuffixMatcher.Match lowerASCIIOnly (NewSuffixMatcher [WithSuffixes [".go"]])
    sampleFS (joinPath "/r/a" "Main.GO" ++ "//") = true
  <-> SuffixMatcher.suffixes (NewSuffixMatcher [WithSuffixes [".go"]]) = []
      \/ exists s, In s (SuffixMatcher.suffixes (NewSuffixMatcher [WithSuffixes [".go"]]))
                   /\ endsWith (lowerCased "Main.GO") s.
Proof.
  apply (proj1 (proj1 (proj2 (SuffixMatcher_Match_iff lowerASCIIOnly))
                  (NewSuffixMatcher [WithSuffixes [".go"]]) sampleFS
                  "/r/a" "Main.GO" "//"
                  ltac:(discriminate) eq_refl
                  ltac:(intros c [<-|[<-|[]]]; reflexivity))).
  intros c Hin. simpl in Hin.
  repeat (destruct Hin as [<-|Hin]; [reflexivity|]). destruct Hin.
Defined.


(** ** HiddenMatcher *)

Lemma HiddenMatcher_hidden_true fsys p :
  HiddenMatcher.Match {| HiddenMatcher.hidden := true |} fsys p = true.
Proof. reflexivity. Qed.

(** With the flag off the method answers whether the base name begins with
    a dot. *)
Lemma HiddenMatcher_hidden_false fsys p :
  HiddenMatcher.Match {| HiddenMatcher.hidden := false |} fsys p = true
  <-> beginsWith (Filepath.Base p) ".".
Proof. unfold HiddenMatcher.Match; simpl. apply HasPrefix_spec. Qed.

(** C2, as the code behaves. With hidden=false the matcher returns true for
    [/r/.git] and false for [/r/README]: line 276 returns the prefix test
    itself, not its negation. *)
Theorem HiddenMatcher_scenario5_code :
  forall fsys : Fs.FS,
    HiddenMatcher.Match (NewHiddenMatcher [WithHidden false]) fsys "/r/.git" = true
    /\ HiddenMatcher.Match (NewHiddenMatcher [WithHidden false]) fsys "/r/README" = false.
Proof. intros fsys; split; reflexivity. Qed.

(** ** FiletypeMatcher *)

Section FiletypeProps.

Variables (fsys : Fs.FS) (path : string) (info : Fs.FileInfo).

Local Abbreviation fns := (FiletypeMatcher.fnsOf fsys path info).
Local Abbreviation mode := (Fs.Mode info).

Lemma call_FT_FILE :
  FiletypeMatcher.call fns FT_FILE = Ok (Z.land mode Fs.ModeType =? 0).
Proof. reflexivity. Qed.

Lemma call_FT_DIRECTORY :
  FiletypeMatcher.call fns FT_DIRECTORY = Ok (Z.land mode Fs.ModeDir =? 0).
Proof. reflexivity. Qed.

Lemma call_FT_SYMLINK :
  FiletypeMatcher.call fns FT_SYMLINK = Ok (Z.land mode Fs.ModeSymlink =? 0).
Proof. reflexivity. Qed.

Lemma call_FT_SOCKET :
  FiletypeMatcher.call fns FT_SOCKET = Ok (Z.land mode Fs.ModeSocket =? 0).
Proof. reflexivity. Qed.

Lemma call_FT_PIPE :
  FiletypeMatcher.call fns FT_PIPE = Ok (Z.land mode Fs.ModeNamedPipe =? 0).
Proof. reflexivity. Qed.

Lemma call_FT_EXECUTABLE :
  FiletypeMatcher.call fns FT_EXECUTABLE = Ok (0 <? Z.land mode 73).
Proof. reflexivity. Qed.

Lemma call_FT_EMPTY :
  FiletypeMatcher.call fns FT_EMPTY
  = Ok (if Z.land mode Fs.ModeType =? 0 then Fs.Size info =? 0
        else if Z.land mode Fs.ModeDir =? 0 then
               match Fs.ReadDir fsys path with
               | None => false
               | Some des => (List.length des =? 0)%nat
               end
             else false).
Proof.
  unfold FiletypeMatcher.call; simpl. unfold FiletypeMatcher.emptyFn.
  unfold FiletypeMatcher.call; simpl.
  destruct (Z.land mode Fs.ModeType =? 0); simpl; [reflexivity|].
  destruct (Z.land mode Fs.ModeDir =? 0); simpl; [|reflexivity].
  destruct (Fs.ReadDir fsys path); reflexivity.
Qed.

(** A tag outside the seven constants has no entry: the call panics. *)
Lemma call_unknown :
  FiletypeMatcher.call fns "z" = Panicked nil_call.
Proof. reflexivity. Qed.

End FiletypeProps.

(** The loop is a logical OR over the requested types, as long as every
    call returns. *)
Lemma anyType_or (fns : FiletypeMatcher.table) (fts : list FileType) :
  (forall ft, In ft fts -> exists b, FiletypeMatcher.call fns ft = Ok b) ->
  exists b, FiletypeMatcher.anyType fns fts = Ok b
            /\ (b = true <->
                exists ft, In ft fts /\ FiletypeMatcher.call fns ft = Ok true).
Proof.
  induction fts as [|ft rest IH]; intros Hall; simpl.
  - exists false. split; [reflexivity|]. split; [discriminate|].
    intros (ft & [] & _).
  - destruct (Hall ft (or_introl eq_refl)) as [b Hb]. rewrite Hb; simpl.
    destruct b.
    + exists true. split; [reflexivity|]. split; [|reflexivity].
      intros _. exists ft. split; [now left | exact Hb].
    + destruct IH as (b & Hrun & Hiff).
      { intros ft' Hin. apply Hall. now right. }
      exists b. split; [exact Hrun|]. rewrite Hiff. split.
      * intros (ft' & Hin & Hc). exists ft'. split; [now right | exact Hc].
      * intros (ft' & [<- | Hin] & Hc); [congruence|].
        exists ft'. split; assumption.
Qed.

(** C1, as the code behaves. Asked for directories, the matcher rejects the
    directory [/r/d] and accepts the regular file [/r/f]; asked for empty
    entries, it rejects the empty directory [/r/d].  Lines 116, 117, 125
    and 126 compare the masked bit with zero, so each test holds when the
    bit is clear. *)
Theorem FiletypeMatcher_directory_code :
  FiletypeMatcher.Match (NewFiletypeMatcher [WithFileTypes [FT_DIRECTORY]])
    sampleFS "/r/d" = Ok false
  /\ FiletypeMatcher.Match (NewFiletypeMatcher [WithFileTypes [FT_DIRECTORY]])
       sampleFS "/r/f" = Ok true
  /\ FiletypeMatcher.Match (NewFiletypeMatcher [WithFileTypes [FT_EMPTY]])
       sampleFS "/r/d" = Ok false.
Proof. repeat split; reflexivity. Qed.

(** ** ChangeTimeMatcher *)

(** C5. Under the ordering invariant, on a path whose stat succeeds, the
    method returns, and returns true iff the modification time is strictly
    after [older] (when set) and strictly before [newer] (when set); with
    neither cutoff set it returns true on every file system and path. *)
Theorem ChangeTimeMatcher_open_interval
        (m : ChangeTimeMatcher.t) (fsys : Fs.FS) (p : string) :
  ChangeTime_ordered m = true ->
  (forall info, Fs.Stat fsys p = Some info ->
     exists b, ChangeTimeMatcher.Match m fsys p = Ok b
       /\ (b = true <->
           (forall o, ChangeTimeMatcher.older m = Some o -> o < Fs.ModTime info)
           /\ (forall n, ChangeTimeMatcher.newer m = Some n -> Fs.ModTime info < n)))
  /\ (ChangeTimeMatcher.older m = None -> ChangeTimeMatcher.newer m = None ->
      forall fsys' p', ChangeTimeMatcher.Match m fsys' p' = Ok true).
Proof.
  intros Hord. split.
  - intros info Hstat. unfold ChangeTimeMatcher.Match, ChangeTime_ordered in *.
    destruct (ChangeTimeMatcher.older m) as [o|], (ChangeTimeMatcher.newer m) as [n|];
      rewrite ?Hstat; simpl; rewrite ?Hord; simpl;
      unfold Time.Before, Time.After.
    + eexists; split; [reflexivity|].
      rewrite andb_true_iff, !Z.ltb_lt. split.
      * intros [H1 H2]; split; intros ? [= <-]; assumption.
      * intros [H1 H2]; split; [now apply H1 | now apply H2].
    + eexists; split; [reflexivity|]. rewrite Z.ltb_lt. split.
      * intros H1; split; [intros ? [= <-]; assumption | discriminate].
      * intros [H1 _]; now apply H1.
    + eexists; split; [reflexivity|]. rewrite Z.ltb_lt. split.
      * intros H1; split; [discriminate | intros ? [= <-]; assumption].
      * intros [_ H2]; now apply H2.
    + exists true. split; [reflexivity|]. split; [|reflexivity].
      intros _; split; discriminate.
  - intros Ho Hn fsys' p'. unfold ChangeTimeMatcher.Match.
    now rewrite Ho, Hn.
Qed.

Lemma ChangeTimeMatcher_open_interval_witness :
  ChangeTime_ordered
    (NewChangeTimeMatcher [WithTimeOlder (Some 10); WithTimeNewer (Some 20)]) = true
  /\ exists b,
      ChangeTimeMatcher.Match
        (NewChangeTimeMatcher [WithTimeOlder (Some 10); WithTimeNewer (Some 20)])
        sampleFS "/r/f" = Ok b
      /\ (b = true <->
          (forall o, Some 10 = Some o -> o < 15)
          /\ (forall n, Some 20 = Some n -> 15 < n)).
Proof.
  split; [reflexivity|].
  apply (proj1 (ChangeTimeMatcher_open_interval
                  (NewChangeTimeMatcher [WithTimeOlder (Some 10); WithTimeNewer (Some 20)])
                  sampleFS "/r/f" eq_refl)
               {| Fs.Mode := 420; Fs.Size := 12; Fs.ModTime := 15 |}).
  reflexivity.
Defined.

(** The endpoints are excluded. *)
Example ChangeTimeMatcher_endpoints :
  let m := NewChangeTimeMatcher [WithTimeOlder (Some 15); WithTimeNewer (Some 20)] in
  let m' := NewChangeTimeMatcher [WithTimeOlder (Some 10); WithTimeNewer (Some 15)] in
  ChangeTimeMatcher.Match m sampleFS "/r/f" = Ok false
  /\ ChangeTimeMatcher.Match m' sampleFS "/r/f" = Ok false.
Proof. split; reflexivity. Qed.

(** Without the invariant the assertion of line 193 fires. *)
Example ChangeTimeMatcher_unordered_panics :
  ChangeTimeMatcher.Match
    (NewChangeTimeMatcher [WithTimeOlder (Some 20); WithTimeNewer (Some 10)])
    sampleFS "/r/f" = Panicked "todo".
Proof. reflexivity. Qed.

(** ** SizeMatcher *)

Lemma SizeMatcher_unbounded (m : SizeMatcher.t) fsys p :
  SizeMatcher.min m < 0 -> SizeMatcher.max m < 0 ->
  SizeMatcher.Match m fsys p = Ok true.
Proof.
  intros Hmin Hmax. unfold SizeMatcher.Match.
  apply Z.ltb_lt in Hmin, Hmax. now rewrite Hmin, Hmax.
Qed.

Lemma SizeMatcher_stat_ok (m : SizeMatcher.t) fsys p info :
  Size_ordered m = true ->
  Fs.Stat fsys p = Some info ->
  SizeMatcher.Match m fsys p
  = Ok (((SizeMatcher.min m <? 0) || (SizeMatcher.min m <=? Fs.Size info))
        && ((SizeMatcher.max m <? 0) || (Fs.Size info <=? SizeMatcher.max m))).
Proof.
  unfold Size_ordered, SizeMatcher.Match, assert. intros Hord Hstat.
  rewrite Hstat.
  destruct (Z.ltb_spec (SizeMatcher.min m) 0) as [Hmin|Hmin],
           (Z.ltb_spec (SizeMatcher.max m) 0) as [Hmax|Hmax]; simpl.
  - reflexivity.
  - destruct (Z.leb_spec 0 (SizeMatcher.max m)); [|lia].
    destruct (Z.leb_spec 0 (SizeMatcher.min m)); [lia|].
    destruct (Z.leb_spec (SizeMatcher.min m) (SizeMatcher.max m)); [|lia].
    reflexivity.
  - destruct (Z.leb_spec 0 (SizeMatcher.max m)); [lia|].
    destruct (Z.leb_spec 0 (SizeMatcher.min m)); [|lia].
    simpl. now rewrite andb_true_r.
  - destruct (Z.leb_spec 0 (SizeMatcher.max m)); [|lia].
    destruct (Z.leb_spec 0 (SizeMatcher.min m)); [|lia].
    simpl in Hord. rewrite Hord. reflexivity.
Qed.

(** C6. Under the ordering precondition, on a path whose stat succeeds, the
    method returns, and returns true iff the size is at least [min] (when
    [min] is set, that is non-negative) and at most [max] (when set): both
    ends included, a negative bound is no bound.  With both bounds negative
    it returns true on every file system and path.  With (min=0, max=100) a
    file of 100 bytes matches and one of 101 does not. *)
Theorem SizeMatcher_closed_interval
        (m : SizeMatcher.t) (fsys : Fs.FS) (p : string) :
  Size_ordered m = true ->
  (forall info, Fs.Stat fsys p = Some info ->
     exists b, SizeMatcher.Match m fsys p = Ok b
       /\ (b = true <->
           (0 <= SizeMatcher.min m -> SizeMatcher.min m <= Fs.Size info)
           /\ (0 <= SizeMatcher.max m -> Fs.Size info <= SizeMatcher.max m)))
  /\ (SizeMatcher.min m < 0 -> SizeMatcher.max m < 0 ->
      forall fsys' p', SizeMatcher.Match m fsys' p' = Ok true)
  /\ (forall mode mtime,
        let file size := {| Fs.Stat := fun _ => Some {| Fs.Mode := mode;
                                                        Fs.Size := size;
                                                        Fs.ModTime := mtime |};
                            Fs.ReadDir := fun _ => None |} in
        let m0 := NewSizeMatcher [WithMinSize 0; WithMaxSize 100] in
        SizeMatcher.Match m0 (file 100) p = Ok true
        /\ SizeMatcher.Match m0 (file 101) p = Ok false).
Proof.
  intros Hord. split; [|split].
  - intros info Hstat. eexists. split.
    + apply SizeMatcher_stat_ok; eassumption.
    + rewrite andb_true_iff, !orb_true_iff, !Z.ltb_lt, !Z.leb_le. lia.
  - intros Hmin Hmax fsys' p'. now apply SizeMatcher_unbounded.
  - intros mode mtime. split; reflexivity.
Qed.

Lemma SizeMatcher_closed_interval_witness :
  Size_ordered (NewSizeMatcher [WithMinSize 12; WithMaxSize 12]) = true
  /\ exists b,
      SizeMatcher.Match (NewSizeMatcher [WithMinSize 12; WithMaxSize 12])
        sampleFS "/r/f" = Ok b
      /\ (b = true <-> (0 <= 12 -> 12 <= 12) /\ (0 <= 12 -> 12 <= 12)).
Proof.
  split; [reflexivity|].
  apply (proj1 (SizeMatcher_closed_interval
                  (NewSizeMatcher [WithMinSize 12; WithMaxSize 12])
                  sampleFS "/r/f" eq_refl)
               {| Fs.Mode := 420; Fs.Size := 12; Fs.ModTime := 15 |}).
  reflexivity.
Defined.

(** Without the precondition the assertion of line 246 fires. *)
Example SizeMatcher_unordered_panics :
  SizeMatcher.Match (NewSizeMatcher [WithMinSize 5; WithMaxSize 1])
    sampleFS "/r/f" = Panicked "todo".
Proof. reflexivity. Qed.

(** ** Stat failures *)

(** C9. On a path whose stat fails, the file-type matcher with a non-empty
    type set, the change-time matcher with a cutoff set and the size matcher
    with a bound set each return false; none panics.  The stat comes before
    the assertions on the bounds, so this holds whatever the order of the
    bounds. *)
Theorem stat_failure_is_no_match (fsys : Fs.FS) (p : string) :
  Fs.Stat fsys p = None ->
  (forall m, FiletypeMatcher.ftypes m <> [] ->
             FiletypeMatcher.Match m fsys p = Ok false)
  /\ (forall m, ChangeTimeMatcher.older m <> None \/ ChangeTimeMatcher.newer m <> None ->
                ChangeTimeMatcher.Match m fsys p = Ok false)
  /\ (forall m, 0 <= SizeMatcher.min m \/ 0 <= SizeMatcher.max m ->
                SizeMatcher.Match m fsys p = Ok false).
Proof.
  intros Hstat. split; [|split].
  - intros m Hne. unfold FiletypeMatcher.Match. rewrite Hstat.
    destruct (FiletypeMatcher.ftypes m); [congruence | reflexivity].
  - intros m Hset. unfold ChangeTimeMatcher.Match. rewrite Hstat.
    destruct (ChangeTimeMatcher.older m), (ChangeTimeMatcher.newer m);
      try reflexivity.
    destruct Hset; congruence.
  - intros m Hset. unfold SizeMatcher.Match. rewrite Hstat.
    destruct (Z.ltb_spec (SizeMatcher.min m) 0),
             (Z.ltb_spec (SizeMatcher.max m) 0); simpl; try reflexivity.
    lia.
Qed.

Lemma stat_failure_is_no_match_witness :
  Fs.Stat sampleFS "/r/gone" = None
  /\ FiletypeMatcher.Match (NewFiletypeMatcher [WithFileTypes [FT_FILE]])
       sampleFS "/r/gone" = Ok false
  /\ ChangeTimeMatcher.Match (NewChangeTimeMatcher [WithTimeNewer (Some 20)])
       sampleFS "/r/gone" = Ok false
  /\ SizeMatcher.Match (NewSizeMatcher [WithMaxSize 100])
       sampleFS "/r/gone" = Ok false.
Proof.
  split; [reflexivity|].
  destruct (stat_failure_is_no_match sampleFS "/r/gone" eq_refl) as (Hft & Hct & Hsz).
  split; [|split].
  - apply Hft. discriminate.
  - apply Hct. right. discriminate.
  - apply Hsz. right. simpl. lia.
Defined.

(** ** MaxResultMatcher *)

Lemma wrapInt_small (z : Z) : - 2 ^ 63 <= z <= maxInt -> wrapInt z = z.
Proof.
  unfold wrapInt, maxInt. intros H. rewrite Z.mod_small; lia.
Qed.

Lemma MaxResultMatcher_unbounded (m : MaxResultMatcher.t) fsys p :
  MaxResultMatcher.max m < 0 -> MaxResultMatcher.Match m fsys p = (true, m).
Proof.
  intros H. unfold MaxResultMatcher.Match. apply Z.ltb_lt in H. now rewrite H.
Qed.

Lemma MaxResultMatcher_below (m : MaxResultMatcher.t) fsys p :
  0 <= MaxResultMatcher.count m < MaxResultMatcher.max m ->
  MaxResultMatcher.max m <= maxInt ->
  MaxResultMatcher.Match m fsys p
  = (true, {| MaxResultMatcher.count := MaxResultMatcher.count m + 1;
              MaxResultMatcher.max := MaxResultMatcher.max m |}).
Proof.
  intros Hc Hmax. unfold MaxResultMatcher.Match.
  destruct (Z.ltb_spec (MaxResultMatcher.max m) 0); [lia|].
  destruct (Z.ltb_spec (MaxResultMatcher.count m) (MaxResultMatcher.max m)); [|lia].
  rewrite wrapInt_small by (unfold maxInt in *; lia). reflexivity.
Qed.

Lemma MaxResultMatcher_reached (m : MaxResultMatcher.t) fsys p :
  0 <= MaxResultMatcher.max m <= MaxResultMatcher.count m ->
  MaxResultMatcher.Match m fsys p = (false, m).
Proof.
  intros H. unfold MaxResultMatcher.Match.
  destruct (Z.ltb_spec (MaxResultMatcher.max m) 0); [lia|].
  destruct (Z.ltb_spec (MaxResultMatcher.count m) (MaxResultMatcher.max m)); [lia|].
  reflexivity.
Qed.

(** Once the counter has reached the cap, every call returns false and
    leaves the matcher as it is. *)
Lemma run_reached (m : MaxResultMatcher.t) fsys paths :
  0 <= MaxResultMatcher.max m <= MaxResultMatcher.count m ->
  MaxResultMatcher.run m fsys paths = (repeat false (List.length paths), m).
Proof.
  intros H. induction paths as [|p rest IH]; simpl; [reflexivity|].
  rewrite MaxResultMatcher_reached by exact H. now rewrite IH.
Qed.

(** With [d] results still allowed, the next [d] calls return true and all
    later ones false. *)
Lemma run_below (d : nat) : forall (m : MaxResultMatcher.t) fsys paths,
  0 <= MaxResultMatcher.count m ->
  MaxResultMatcher.max m <= maxInt ->
  MaxResultMatcher.max m - MaxResultMatcher.count m = Z.of_nat d ->
  (d <= List.length paths)%nat ->
  MaxResultMatcher.run m fsys paths
  = ((repeat true d ++ repeat false (List.length paths - d))%list,
     {| MaxResultMatcher.count := MaxResultMatcher.max m;
        MaxResultMatcher.max := MaxResultMatcher.max m |}).
Proof.
  induction d as [|d IH]; intros m fsys paths Hc Hmax Hd Hlen.
  - rewrite run_reached by lia. rewrite Nat.sub_0_r. simpl.
    destruct m as [c k]; simpl in *. do 2 f_equal. lia.
  - destruct paths as [|p rest]; simpl in Hlen; [lia|].
    simpl. rewrite MaxResultMatcher_below by lia.
    rewrite IH; simpl; try lia. reflexivity.
Qed.

(** C4. A matcher built with max = k >= 0 and called N >= k times returns
    true on the first k calls and false on all later ones, and ends with its
    counter at k; a matcher with a negative max returns true on every call
    and is left unchanged. *)
Theorem MaxResultMatcher_cap :
  forall (k : Z) (fsys : Fs.FS) (paths : list string),
    0 <= k <= maxInt ->
    (Z.to_nat k <= List.length paths)%nat ->
    MaxResultMatcher.count (NewMaxResultMatcher [WithMaxResult k]) = 0
    /\ MaxResultMatcher.run (NewMaxResultMatcher [WithMaxResult k]) fsys paths
       = ((repeat true (Z.to_nat k)
           ++ repeat false (List.length paths - Z.to_nat k))%list,
          {| MaxResultMatcher.count := k; MaxResultMatcher.max := k |})
    /\ (forall (m : MaxResultMatcher.t) (p : string),
           MaxResultMatcher.max m < 0 ->
           MaxResultMatcher.Match m fsys p = (true, m)).
Proof.
  intros k fsys paths Hk Hlen. split; [reflexivity|]. split.
  - apply (run_below (Z.to_nat k)
                     (NewMaxResultMatcher [WithMaxResult k])); simpl; lia.
  - intros m p Hneg. now apply MaxResultMatcher_unbounded.
Qed.

Lemma MaxResultMatcher_cap_witness :
  fst (MaxResultMatcher.run (NewMaxResultMatcher [WithMaxResult 2]) sampleFS
         ["/r/p1"; "/r/p2"; "/r/p3"])
  = [true; true; false].
Proof.
  rewrite (proj1 (proj2 (MaxResultMatcher_cap 2 sampleFS ["/r/p1"; "/r/p2"; "/r/p3"]
                           ltac:(unfold maxInt; lia) ltac:(simpl; lia)))).
  reflexivity.
Defined.

(** ** MultiMatcher *)

Section CompositeProps.

Variable W : Type.
Variables (fsys : Fs.FS) (path : string).

Implicit Types (vs : list (Matcher W)) (v : Matcher W) (w : W).

Lemma matchAll_true vs : forall w w',
  matchAll vs fsys path w = Ok (true, w') <-> allTrue fsys path vs w w'.
Proof.
  induction vs as [|v rest IH]; intros w w'; simpl.
  - split.
    + intros [= <-]. constructor.
    + intros H. inversion H; subst. reflexivity.
  - split.
    + destruct (v fsys path w) as [[[|] w1]|msg] eqn:Hv; simpl; try discriminate.
      intros H. apply IH in H. econstructor; eassumption.
    + intros H. inversion H as [|? ? ? w1 ? Hv Hrest]; subst.
      rewrite Hv; simpl. now apply IH.
Qed.

(** The run stops at the first matcher that returns false: what follows
    it in the list has no part in the result or in the memory left. *)
Lemma matchAll_false vs : forall w w',
  matchAll vs fsys path w = Ok (false, w') <->
  exists before v after w1,
    vs = (before ++ v :: after)%list
    /\ allTrue fsys path before w w1
    /\ v fsys path w1 = Ok (false, w').
Proof.
  induction vs as [|v rest IH]; intros w w'; simpl.
  - split; [discriminate|].
    intros (before & v & after & w1 & Heq & _). now destruct before.
  - split.
    + destruct (v fsys path w) as [[[|] w1]|msg] eqn:Hv; simpl; try discriminate.
      * intros H. apply IH in H.
        destruct H as (before & v' & after & w2 & -> & Hall & Hv').
        exists (v :: before), v', after, w2. repeat split; [|exact Hv'].
        econstructor; eassumption.
      * intros [= <-]. exists [], v, rest, w. repeat split; [constructor | exact Hv].
    + intros (before & v' & after & w1 & Heq & Hall & Hv').
      destruct before as [|v0 before]; simpl in Heq; injection Heq as -> ->.
      * inversion Hall; subst. rewrite Hv'. reflexivity.
      * inversion Hall as [|? ? ? w2 ? Hv0 Hrest]; subst.
        rewrite Hv0; simpl. apply IH.
        exists before, v', after, w1. repeat split; assumption.
Qed.

(** A panic of a matcher that is reached is the panic of the composite. *)
Lemma matchAll_panic vs : forall w msg,
  matchAll vs fsys path w = Panicked msg <->
  exists before v after w1,
    vs = (before ++ v :: after)%list
    /\ allTrue fsys path before w w1
    /\ v fsys path w1 = Panicked msg.
Proof.
  induction vs as [|v rest IH]; intros w msg; simpl.
  - split; [discriminate|].
    intros (before & v & after & w1 & Heq & _). now destruct before.
  - split.
    + destruct (v fsys path w) as [[[|] w1]|msg'] eqn:Hv; simpl; try discriminate.
      * intros H. apply IH in H.
        destruct H as (before & v' & after & w2 & -> & Hall & Hv').
        exists (v :: before), v', after, w2. repeat split; [|exact Hv'].
        econstructor; eassumption.
      * intros [= <-]. exists [], v, rest, w. repeat split; [constructor | exact Hv].
    + intros (before & v' & after & w1 & Heq & Hall & Hv').
      destruct before as [|v0 before]; simpl in Heq; injection Heq as -> ->.
      * inversion Hall; subst. rewrite Hv'. reflexivity.
      * inversion Hall as [|? ? ? w2 ? Hv0 Hrest]; subst.
        rewrite Hv0; simpl. apply IH.
        exists before, v', after, w1. repeat split; assumption.
Qed.

End CompositeProps.

(** C8. A composite with no matcher returns true and leaves the memory as
    it is.  [Add] appends, so the matchers run in registration order.  The
    composite returns true iff each matcher, called in that order on the
    memory its predecessor left, returned true; it returns false iff some
    matcher returned false after all those before it returned true, and
    then the result and the memory are those of that call, whatever is
    registered after it. *)
Theorem MultiMatcher_short_circuit_and (W : Type) :
  (forall fsys p (w : W), Match {| ms := [] |} fsys p w = Ok (true, w))
  /\ (forall (m : MultiMatcher W) new, ms (Add m new) = (ms m ++ new)%list)
  /\ (forall (m : MultiMatcher W) fsys p w w',
         Match m fsys p w = Ok (true, w') <-> allTrue fsys p (ms m) w w')
  /\ (forall (m : MultiMatcher W) fsys p w w',
         Match m fsys p w = Ok (false, w') <->
         exists before v after w1,
           ms m = (before ++ v :: after)%list
           /\ allTrue fsys p before w w1
           /\ v fsys p w1 = Ok (false, w'))
  /\ (forall before (v : Matcher W) fsys p w w1 w',
         allTrue fsys p before w w1 ->
         v fsys p w1 = Ok (false, w') ->
         forall after,
           Match {| ms := before ++ v :: after |} fsys p w = Ok (false, w')).
Proof.
  split; [reflexivity|].
  split; [reflexivity|].
  split; [intros; apply matchAll_true|].
  split; [intros; apply matchAll_false|].
  intros before v fsys p w w1 w' Hall Hv after. apply matchAll_false.
  exists before, v, after, w1. repeat split; assumption.
Qed.

Lemma MultiMatcher_short_circuit_and_witness :
  Match (goThenCap [fallibleMatcher FilenameMatcher.Match])
    sampleFS "/r/a/main.txt" [NewMaxResultMatcher [WithMaxResult 1]]
  = Ok (false, [NewMaxResultMatcher [WithMaxResult 1]]).
Proof.
  apply (proj2 (proj2 (proj2 (proj2
           (MultiMatcher_short_circuit_and (list MaxResultMatcher.t)))))
           [] _ sampleFS "/r/a/main.txt"
           [NewMaxResultMatcher [WithMaxResult 1]]
           [NewMaxResultMatcher [WithMaxResult 1]]
           [NewMaxResultMatcher [WithMaxResult 1]]).
  - constructor.
  - reflexivity.
Defined.

(** The cap counts the paths that reach it, and stops the run for good
    once it is used up: the panicking matcher registered after it is
    reached by the first [.go] path only. *)
Example MultiMatcher_cap_last :
  let w := [NewMaxResultMatcher [WithMaxResult 1]] in
  let w1 := [{| MaxResultMatcher.count := 1; MaxResultMatcher.max := 1 |}] in
  Match (goThenCap []) sampleFS "/r/a/main.go" w = Ok (true, w1)
  /\ Match (goThenCap []) sampleFS "/r/b/util.go" w1 = Ok (false, w1)
  /\ Match (goThenCap [fallibleMatcher FilenameMatcher.Match])
        sampleFS "/r/a/main.go" w = Panicked "todo"
  /\ Match (goThenCap [fallibleMatcher FilenameMatcher.Match])
        sampleFS "/r/b/util.go" w1 = Ok (false, w1).
Proof. repeat split; reflexivity. Qed.

(** One counter registered twice is one object: a cap of 1 is used up by
    the first entry and the second entry rejects the same path. *)
Example MultiMatcher_shared_counter :
  let w := [NewMaxResultMatcher [WithMaxResult 1]] in
  Match {| ms := [counterMatcher 0; counterMatcher 0] |} sampleFS "/r/a/main.go" w
  = Ok (false, [{| MaxResultMatcher.count := 1; MaxResultMatcher.max := 1 |}]).
Proof. reflexivity. Qed.

(** ** DepthMatcher *)

(** The method does not look at the file system. *)
Lemma DepthMatcher_ignores_fs (m : DepthMatcher.t) (fsys fsys' : Fs.FS) (p : string) :
  DepthMatcher.Match m fsys p = DepthMatcher.Match m fsys' p.
Proof. reflexivity. Qed.

Section SplitFacts.

Variable sep : ascii.

Lemma Split_not_nil (s : string) : Strings.Split sep s <> [].
Proof.
  destruct s as [|c s]; simpl; [discriminate|].
  destruct (Ascii.eqb c sep); [discriminate|].
  destruct (Strings.Split sep s); discriminate.
Qed.

(** A string without the separator is the one piece of its split. *)
Lemma Split_absent (s : string) :
  hasByte sep s = false -> Strings.Split sep s = [s].
Proof.
  unfold hasByte, Strings.bytes.
  induction s as [|c s IH]; simpl; [reflexivity|].
  rewrite orb_false_iff, Ascii.eqb_sym. intros [Hc Hs].
  rewrite Hc, IH by exact Hs. reflexivity.
Qed.

(** The pieces of a split have no byte the string does not have. *)
Lemma Split_pieces (c : ascii) (s : string) :
  hasByte c s = false ->
  Forall (fun e => hasByte c e = false) (Strings.Split sep s).
Proof.
  unfold hasByte, Strings.bytes.
  induction s as [|c0 s IH]; simpl.
  - intros _. repeat constructor.
  - rewrite orb_false_iff. intros [Hc Hs]. specialize (IH Hs).
    destruct (Ascii.eqb c0 sep).
    + constructor; [reflexivity | exact IH].
    + destruct (Strings.Split sep s) as [|h t]; constructor; simpl.
      * now rewrite Hc.
      * constructor.
      * inversion IH; subst. now rewrite Hc.
      * now inversion IH.
Qed.

Lemma hasByte_append (c : ascii) (a b : string) :
  hasByte c (a ++ b) = hasByte c a || hasByte c b.
Proof. unfold hasByte. rewrite bytes_append. apply existsb_app. Qed.

Lemma Join_pieces (c : ascii) (elems : list string) :
  Ascii.eqb c sep = false ->
  Forall (fun e => hasByte c e = false) elems ->
  hasByte c (Strings.Join sep elems) = false.
Proof.
  intros Hc. induction elems as [|e rest IH]; intros Hall; [reflexivity|].
  inversion Hall as [|? ? He Hrest]; subst.
  destruct rest as [|e' rest]; [exact He|].
  change (Strings.Join sep (e :: e' :: rest))
    with (e ++ String sep (Strings.Join sep (e' :: rest))).
  rewrite hasByte_append, He. simpl.
  unfold hasByte in *; simpl. rewrite Hc. simpl. now apply IH.
Qed.

Lemma Join_not_empty (e : string) (rest : list string) :
  e <> "" -> Strings.Join sep (e :: rest) <> "".
Proof.
  intros He. destruct e as [|c e]; [congruence|].
  destruct rest; simpl; discriminate.
Qed.

End SplitFacts.

Section CleanFacts.

Variable c : ascii.
Hypothesis c_not_dot : Ascii.eqb c "." = false.

(** What [Clean] keeps of a path: elements that are not empty and have no
    byte [c]. *)
Let kept (e : string) : Prop := hasByte c e = false /\ e <> "".

Lemma cleanStep_kept rooted out elem :
  hasByte c elem = false ->
  Forall kept out -> Forall kept (Filepath.cleanStep rooted out elem).
Proof.
  intros Helem Hout. unfold Filepath.cleanStep.
  destruct (String.eqb_spec elem ""); [exact Hout|].
  destruct (String.eqb_spec elem "."); [exact Hout|].
  assert (Hk : kept elem) by (split; assumption).
  destruct (String.eqb elem "..").
  - destruct out as [|top below].
    + destruct rooted; [exact Hout | now constructor].
    + destruct (String.eqb top "..").
      * destruct rooted; [exact Hout | now constructor].
      * now inversion Hout.
  - now constructor.
Qed.

Lemma cleanFold_kept rooted elems : forall out,
  Forall (fun e => hasByte c e = false) elems ->
  Forall kept out ->
  Forall kept (fold_left (Filepath.cleanStep rooted) elems out).
Proof.
  induction elems as [|e rest IH]; intros out Hall Hout; simpl; [exact Hout|].
  inversion Hall; subst. apply IH; [assumption|].
  now apply cleanStep_kept.
Qed.

Hypothesis c_not_sep : Ascii.eqb c Filepath.Separator = false.

(** [Clean] adds no byte other than the separator and the dot, and never
    returns the empty string. *)
Lemma Clean_kept (path : string) :
  hasByte c path = false ->
  hasByte c (Filepath.Clean path) = false /\ Filepath.Clean path <> "".
Proof.
  intros Hp. unfold Filepath.Clean. destruct path as [|c0 rest] eqn:Hpath.
  - split; [|discriminate]. unfold hasByte; simpl. now rewrite c_not_dot.
  - rewrite <- Hpath in *. clear Hpath.
    set (rooted := Filepath.IsPathSeparator c0).
    pose proof (cleanFold_kept rooted _ [] (Split_pieces Filepath.Separator c path Hp)
                               (Forall_nil _)) as Hout.
    set (out := fold_left (Filepath.cleanStep rooted)
                          (Strings.Split Filepath.Separator path) []) in *.
    assert (Hjoin : hasByte c (Strings.Join Filepath.Separator (rev out)) = false).
    { apply Join_pieces; [exact c_not_sep|].
      apply Forall_rev. eapply Forall_impl; [|exact Hout]. now intros e [He _]. }
    destruct rooted.
    + split; [|discriminate]. unfold hasByte in *; simpl.
      now rewrite c_not_sep.
    + destruct out as [|top below] eqn:Hout_eq.
      * split; [|discriminate]. unfold hasByte; simpl. now rewrite c_not_dot.
      * rewrite <- Hout_eq in *. split; [exact Hjoin|].
        apply Forall_rev in Hout.
        destruct (rev out) as [|e r] eqn:Hrev.
        { apply (f_equal (@List.length string)) in Hrev.
          rewrite length_rev, Hout_eq in Hrev. discriminate. }
        apply Join_not_empty. inversion Hout as [|? ? [_ He] _]; exact He.
Qed.

End CleanFacts.

(** A cleaned path without a colon is a list of one path for [SplitList]. *)
Lemma SplitList_Clean_one (path : string) :
  hasByte Filepath.ListSeparator path = false ->
  List.length (Filepath.SplitList (Filepath.Clean path)) = 1%nat.
Proof.
  intros Hp.
  destruct (Clean_kept Filepath.ListSeparator eq_refl eq_refl path Hp) as [Hc Hne].
  unfold Filepath.SplitList.
  destruct (Filepath.Clean path) as [|c0 s] eqn:Hclean; [congruence|].
  rewrite Split_absent by exact Hc. reflexivity.
Qed.

(** Options leave the root captured by the constructor as it is. *)
Lemma NewDepthMatcher_exact (root : string) (d : Z) :
  NewDepthMatcher root [WithExactDepth d]
  = {| DepthMatcher.cur := Filepath.SplitList (Filepath.Clean root);
       DepthMatcher.min := d; DepthMatcher.max := d |}.
Proof. reflexivity. Qed.

(** Root and candidate each count as one element unless they contain a
    colon, so the depth the method computes is zero. *)
Lemma DepthMatcher_depth_zero (root path : string) (d : Z) :
  hasByte Filepath.ListSeparator root = false ->
  hasByte Filepath.ListSeparator path = false ->
  DepthMatcher.depth (NewDepthMatcher root [WithExactDepth d]) path = 0.
Proof.
  intros Hroot Hpath. rewrite NewDepthMatcher_exact.
  unfold DepthMatcher.depth; simpl.
  rewrite !SplitList_Clean_one by assumption. reflexivity.
Qed.

(** A matcher for an exact depth d >= 1 rejects every colon-free path under
    every colon-free root. *)
Lemma DepthMatcher_exact_positive_rejects (root path : string) (d : Z) fsys :
  hasByte Filepath.ListSeparator root = false ->
  hasByte Filepath.ListSeparator path = false ->
  1 <= d ->
  DepthMatcher.Match (NewDepthMatcher root [WithExactDepth d]) fsys path = Ok false.
Proof.
  intros Hroot Hpath Hd. unfold DepthMatcher.Match.
  rewrite (DepthMatcher_depth_zero root path d Hroot Hpath).
  rewrite NewDepthMatcher_exact; simpl.
  destruct (Z.leb_spec 0 d); [|lia].
  rewrite Z.leb_refl; simpl.
  destruct (Z.leb_spec d 0); [lia|]. reflexivity.
Qed.

(** C3, as the code behaves. [Match] gives the same answer on every file
    system, but the depth it computes for [/r/x] and for [/r/x/y] under the
    root [/r] is 0, not 1 and 2: line 312 and line 330 count the elements of
    [filepath.SplitList], which splits at colons.  The matcher for exact
    depth 1 returns false for [/r/x] as well as for [/r/x/y]. *)
Theorem DepthMatcher_scenario3_code :
  (forall (m : DepthMatcher.t) (fsys fsys' : Fs.FS) (p : string),
      DepthMatcher.Match m fsys p = DepthMatcher.Match m fsys' p)
  /\ DepthMatcher.depth (NewDepthMatcher "/r" [WithExactDepth 1]) "/r/x" = 0
  /\ DepthMatcher.depth (NewDepthMatcher "/r" [WithExactDepth 1]) "/r/x/y" = 0
  /\ (forall fsys : Fs.FS,
         DepthMatcher.Match (NewDepthMatcher "/r" [WithExactDepth 1]) fsys "/r/x"
         = Ok false
         /\ DepthMatcher.Match (NewDepthMatcher "/r" [WithExactDepth 1]) fsys "/r/x/y"
            = Ok false).
Proof.
  split; [exact DepthMatcher_ignores_fs|].
  split; [reflexivity|]. split; [reflexivity|].
  intros fsys. split; reflexivity.
Qed.

(** * Further properties *)

(** ** Options and constructors *)

Lemma Kind_eqb_eq (a b : Kind) : Kind_eqb a b = true <-> a = b.
Proof. destruct a, b; simpl; split; congruence. Qed.

Lemma toOption_kind (c : OptionCall) (m : MatcherValue) :
  kindOf (toOption c m) = kindOf m.
Proof. destruct c, m; reflexivity. Qed.

Lemma toOption_foreign (c : OptionCall) (m : MatcherValue) :
  targetOf c <> kindOf m -> toOption c m = m.
Proof. destruct c, m; simpl; intros H; congruence. Qed.

Lemma applyOptions_kind (cs : list OptionCall) : forall m,
  kindOf (applyOptions (map toOption cs) m) = kindOf m.
Proof.
  unfold applyOptions. induction cs as [|c cs IH]; intros m; simpl; [reflexivity|].
  now rewrite IH, toOption_kind.
Qed.

Lemma applyOptions_app (a b : list Option) (m : MatcherValue) :
  applyOptions (a ++ b) m = applyOptions b (applyOptions a m).
Proof. unfold applyOptions. apply fold_left_app. Qed.

(** X1. An option of the package leaves a matcher of any type other than
    its own exactly as it is, be it another configurable matcher, a
    NopMatcher, an IgnoreFileMatcher, a FilenameMatcher or a MultiMatcher
    with whatever is registered in it, and never changes the type of the
    matcher it is applied to. *)
Theorem option_is_noop_on_other_types (c : OptionCall) (m : MatcherValue) :
  kindOf (toOption c m) = kindOf m
  /\ (targetOf c <> kindOf m -> toOption c m = m).
Proof. split; [apply toOption_kind | apply toOption_foreign]. Qed.

Lemma applyOptions_filter (cs : list OptionCall) : forall m,
  applyOptions (map toOption cs) m
  = applyOptions (map toOption (optionsFor (kindOf m) cs)) m.
Proof.
  unfold applyOptions, optionsFor.
  induction cs as [|c cs IH]; intros m; simpl; [reflexivity|].
  destruct (Kind_eqb (targetOf c) (kindOf m)) eqn:Hk; simpl.
  - rewrite IH, toOption_kind. reflexivity.
  - rewrite toOption_foreign; [apply IH|].
    intros Heq. apply Kind_eqb_eq in Heq. congruence.
Qed.

(** X2. A constructor ignores the options written for other matchers: it
    builds the matcher it would build from its own options alone, in the
    order given. *)
Theorem constructors_ignore_foreign_options (cs : list OptionCall) :
  NewSuffixMatcher (map toOption cs)
  = NewSuffixMatcher (map toOption (optionsFor KSuffix cs))
  /\ NewFiletypeMatcher (map toOption cs)
     = NewFiletypeMatcher (map toOption (optionsFor KFiletype cs))
  /\ NewChangeTimeMatcher (map toOption cs)
     = NewChangeTimeMatcher (map toOption (optionsFor KChangeTime cs))
  /\ NewSizeMatcher (map toOption cs)
     = NewSizeMatcher (map toOption (optionsFor KSize cs))
  /\ NewHiddenMatcher (map toOption cs)
     = NewHiddenMatcher (map toOption (optionsFor KHidden cs))
  /\ (forall root,
         NewDepthMatcher root (map toOption cs)
         = NewDepthMatcher root (map toOption (optionsFor KDepth cs)))
  /\ NewMaxResultMatcher (map toOption cs)
     = NewMaxResultMatcher (map toOption (optionsFor KMaxResult cs)).
Proof.
  unfold NewSuffixMatcher, NewFiletypeMatcher, NewChangeTimeMatcher,
    NewSizeMatcher, NewHiddenMatcher, NewDepthMatcher, NewMaxResultMatcher.
  repeat split; intros;
    match goal with
    | |- context [applyOptions (map toOption cs) ?m] =>
        rewrite (applyOptions_filter cs m)
    end; reflexivity.
Qed.

(** A matcher of each type, as the options leave it. *)
Lemma applyOptions_OfSize cs sm :
  exists sm', applyOptions (map toOption cs) (OfSize sm) = OfSize sm'.
Proof.
  pose proof (applyOptions_kind cs (OfSize sm)) as H.
  destruct (applyOptions (map toOption cs) (OfSize sm)); try discriminate.
  eexists; reflexivity.
Qed.

Lemma applyOptions_OfDepth cs dm :
  exists dm', applyOptions (map toOption cs) (OfDepth dm) = OfDepth dm'
              /\ DepthMatcher.cur dm' = DepthMatcher.cur dm.
Proof.
  unfold applyOptions. revert dm.
  induction cs as [|c cs IH]; intros dm; simpl.
  - exists dm. split; reflexivity.
  - destruct c; simpl; try apply IH;
      match goal with
      | |- context [fold_left _ _ (OfDepth ?d)] =>
          destruct (IH d) as (dm' & Heq & Hcur); exists dm'; split;
          [exact Heq | exact Hcur]
      end.
Qed.

Lemma applyOptions_OfChangeTime cs ctm :
  exists ctm', applyOptions (map toOption cs) (OfChangeTime ctm) = OfChangeTime ctm'.
Proof.
  pose proof (applyOptions_kind cs (OfChangeTime ctm)) as H.
  destruct (applyOptions (map toOption cs) (OfChangeTime ctm)); try discriminate.
  eexists; reflexivity.
Qed.

(** X3. Options are applied in the order given and the last setting of a
    bound wins: after any options, [WithMinSize a] sets min to a and keeps
    max, [WithMaxSize b] sets max to b and keeps min; the same for the two
    cutoffs of the change-time matcher. *)
Theorem last_option_wins (cs : list OptionCall) :
  (forall a,
      NewSizeMatcher (map toOption cs ++ [WithMinSize a])
      = {| SizeMatcher.min := a;
           SizeMatcher.max := SizeMatcher.max (NewSizeMatcher (map toOption cs)) |})
  /\ (forall b,
         NewSizeMatcher (map toOption cs ++ [WithMaxSize b])
         = {| SizeMatcher.min := SizeMatcher.min (NewSizeMatcher (map toOption cs));
              SizeMatcher.max := b |})
  /\ (forall t,
         NewChangeTimeMatcher (map toOption cs ++ [WithTimeOlder t])
         = {| ChangeTimeMatcher.older := t;
              ChangeTimeMatcher.newer :=
                ChangeTimeMatcher.newer (NewChangeTimeMatcher (map toOption cs)) |})
  /\ (forall t,
         NewChangeTimeMatcher (map toOption cs ++ [WithTimeNewer t])
         = {| ChangeTimeMatcher.older :=
                ChangeTimeMatcher.older (NewChangeTimeMatcher (map toOption cs));
              ChangeTimeMatcher.newer := t |}).
Proof.
  unfold NewSizeMatcher, NewChangeTimeMatcher.
  repeat split; intros; rewrite applyOptions_app.
  - destruct (applyOptions_OfSize cs {| SizeMatcher.min := -1; SizeMatcher.max := -1 |})
      as [sm' ->]. reflexivity.
  - destruct (applyOptions_OfSize cs {| SizeMatcher.min := -1; SizeMatcher.max := -1 |})
      as [sm' ->]. reflexivity.
  - destruct (applyOptions_OfChangeTime cs
                {| ChangeTimeMatcher.older := None; ChangeTimeMatcher.newer := None |})
      as [ctm' ->]. reflexivity.
  - destruct (applyOptions_OfChangeTime cs
                {| ChangeTimeMatcher.older := None; ChangeTimeMatcher.newer := None |})
      as [ctm' ->]. reflexivity.
Qed.

(** X4. [WithExactDepth d] is [WithMinDepth d] followed by [WithMaxDepth d],
    in either order, on every matcher; a depth matcher built with it after
    any other options has min = max = d and the root the constructor
    captured. *)
Theorem WithExactDepth_sets_both (d : Z) :
  (forall m, WithExactDepth d m = WithMaxDepth d (WithMinDepth d m))
  /\ (forall m, WithExactDepth d m = WithMinDepth d (WithMaxDepth d m))
  /\ (forall root cs,
         NewDepthMatcher root (map toOption cs ++ [WithExactDepth d])
         = {| DepthMatcher.cur := Filepath.SplitList (Filepath.Clean root);
              DepthMatcher.min := d; DepthMatcher.max := d |}).
Proof.
  split; [|split].
  - intros []; reflexivity.
  - intros []; reflexivity.
  - intros root cs. unfold NewDepthMatcher. rewrite applyOptions_app.
    destruct (applyOptions_OfDepth cs
                {| DepthMatcher.cur := Filepath.SplitList (Filepath.Clean root);
                   DepthMatcher.min := -1; DepthMatcher.max := -1 |})
      as (dm' & -> & Hcur).
    simpl in *. now rewrite Hcur.
Qed.

(** X5. A matcher built without an option of its own kind filters nothing:
    the suffix, file-type, change-time, size, depth and result-cap matchers
    then return true for every path on every file system, without a panic
    and even where stat fails. *)
Theorem unconfigured_matchers_accept_everything
        (cs : list OptionCall) (mapUnicodeLower : string -> string)
        (fsys : Fs.FS) (p : string) :
  (optionsFor KSuffix cs = [] ->
   SuffixMatcher.Match mapUnicodeLower (NewSuffixMatcher (map toOption cs)) fsys p
   = true)
  /\ (optionsFor KFiletype cs = [] ->
      FiletypeMatcher.Match (NewFiletypeMatcher (map toOption cs)) fsys p = Ok true)
  /\ (optionsFor KChangeTime cs = [] ->
      ChangeTimeMatcher.Match (NewChangeTimeMatcher (map toOption cs)) fsys p = Ok true)
  /\ (optionsFor KSize cs = [] ->
      SizeMatcher.Match (NewSizeMatcher (map toOption cs)) fsys p = Ok true)
  /\ (optionsFor KDepth cs = [] ->
      forall root,
        DepthMatcher.Match (NewDepthMatcher root (map toOption cs)) fsys p = Ok true)
  /\ (optionsFor KMaxResult cs = [] ->
      MaxResultMatcher.Match (NewMaxResultMatcher (map toOption cs)) fsys p
      = (true, NewMaxResultMatcher (map toOption cs))).
Proof.
  unfold NewSuffixMatcher, NewFiletypeMatcher, NewChangeTimeMatcher,
    NewSizeMatcher, NewDepthMatcher, NewMaxResultMatcher.
  repeat split; intros H; intros;
    match goal with
    | |- context [applyOptions (map toOption cs) ?m] =>
        rewrite (applyOptions_filter cs m)
    end; simpl kindOf; rewrite H; reflexivity.
Qed.

Lemma unconfigured_matchers_accept_everything_witness :
  SizeMatcher.Match
    (NewSizeMatcher (map toOption [CallWithHidden true; CallWithMaxDepth 3]))
    sampleFS "/r/gone" = Ok true.
Proof.
  apply (proj1 (proj2 (proj2 (proj2
           (unconfigured_matchers_accept_everything
              [CallWithHidden true; CallWithMaxDepth 3] lowerASCIIOnly
              sampleFS "/r/gone"))))).
  reflexivity.
Defined.

Lemma option_is_noop_on_other_types_witness :
  toOption (CallWithSuffixes [".go"])
    (OfMulti [OfSuffix (NewSuffixMatcher []); OfNop])
  = OfMulti [OfSuffix (NewSuffixMatcher []); OfNop].
Proof.
  apply (proj2 (option_is_noop_on_other_types
                  (CallWithSuffixes [".go"])
                  (OfMulti [OfSuffix (NewSuffixMatcher []); OfNop]))).
  discriminate.
Defined.

(** ** FiletypeMatcher: what each test reads of the mode *)

Lemma land_eq_0_iff (a b : Z) :
  Z.land a b = 0 <-> forall k, 0 <= k -> Z.testbit a k && Z.testbit b k = false.
Proof.
  split.
  - intros H k _. rewrite <- Z.land_spec, H. apply Z.bits_0.
  - intros H. apply Z.bits_inj'. intros k Hk.
    rewrite Z.land_spec, Z.bits_0. now apply H.
Qed.

Lemma land_pow2_eqb_0 (mode k : Z) :
  0 <= k -> (Z.land mode (2 ^ k) =? 0) = negb (Z.testbit mode k).
Proof.
  intros Hk. destruct (Z.testbit mode k) eqn:Hb; simpl.
  - apply Z.eqb_neq. intros H. rewrite land_eq_0_iff in H.
    specialize (H k Hk). rewrite Hb, Z.pow2_bits_true in H by exact Hk.
    discriminate.
  - apply Z.eqb_eq, land_eq_0_iff. intros j Hj.
    rewrite Z.pow2_bits_eqb by exact Hk.
    destruct (Z.eqb_spec k j); [subst; now rewrite Hb | apply andb_false_r].
Qed.

Lemma testbit_ModeType (k : Z) :
  Z.testbit Fs.ModeType k
  = existsb (Z.eqb k) [31; 27; 25; 24; 26; 21; 19].
Proof.
  unfold Fs.ModeType, Fs.ModeDir, Fs.ModeSymlink, Fs.ModeNamedPipe, Fs.ModeSocket,
    Fs.ModeDevice, Fs.ModeCharDevice, Fs.ModeIrregular.
  rewrite !Z.lor_spec, !Z.shiftl_1_l, !Z.pow2_bits_eqb by lia.
  cbn [existsb]. rewrite orb_false_r, !(Z.eqb_sym k). reflexivity.
Qed.

Lemma testbit_xmode (k : Z) :
  Z.testbit FiletypeMatcher.xmode k = existsb (Z.eqb k) [6; 3; 0].
Proof.
  unfold FiletypeMatcher.xmode, FiletypeMatcher.S_IXUSR, FiletypeMatcher.S_IXGRP,
    FiletypeMatcher.S_IXOTH.
  change 64 with (2 ^ 6). change 8 with (2 ^ 3). change 1 with (2 ^ 0).
  rewrite !Z.lor_spec, !Z.pow2_bits_eqb by lia.
  cbn [existsb]. rewrite orb_false_r, !(Z.eqb_sym k). reflexivity.
Qed.

(** A mask has a bit in common with a mode iff one of its bits is set in
    the mode. *)
Lemma land_bits_eq_0 (mode mask : Z) (bits : list Z) :
  (forall k, Z.testbit mask k = existsb (Z.eqb k) bits) ->
  Forall (fun k => 0 <= k) bits ->
  (Z.land mode mask = 0 <-> Forall (fun k => Z.testbit mode k = false) bits).
Proof.
  intros Hmask Hpos. rewrite land_eq_0_iff, Forall_forall. split.
  - intros H k Hin. rewrite Forall_forall in Hpos.
    specialize (H k (Hpos k Hin)). rewrite Hmask in H.
    assert (Hex : existsb (Z.eqb k) bits = true).
    { apply existsb_exists. exists k. split; [exact Hin | apply Z.eqb_refl]. }
    rewrite Hex, andb_true_r in H. exact H.
  - intros H k _. rewrite Hmask.
    destruct (existsb (Z.eqb k) bits) eqn:Hex; [|apply andb_false_r].
    apply existsb_exists in Hex. destruct Hex as (j & Hin & Hj).
    apply Z.eqb_eq in Hj. subst j. now rewrite (H k Hin).
Qed.

Lemma Match_single (ft : FileType) fsys p info :
  Fs.Stat fsys p = Some info ->
  FiletypeMatcher.Match {| FiletypeMatcher.ftypes := [ft] |} fsys p
  = (hit <- FiletypeMatcher.call (FiletypeMatcher.fnsOf fsys p info) ft ;; Ok hit).
Proof.
  intros Hstat. unfold FiletypeMatcher.Match; simpl. rewrite Hstat.
  destruct (FiletypeMatcher.call _ ft) as [[|]|]; reflexivity.
Qed.

(** X6. Asked for regular files only, the matcher returns true on a path
    whose stat succeeds iff none of the seven type bits of the mode
    (directory, symlink, named pipe, socket, device, character device,
    irregular) is set. *)
Theorem FiletypeMatcher_file_test (fsys : Fs.FS) (p : string) (info : Fs.FileInfo) :
  Fs.Stat fsys p = Some info ->
  exists b,
    FiletypeMatcher.Match (NewFiletypeMatcher [WithFileTypes [FT_FILE]]) fsys p = Ok b
    /\ (b = true <->
        Forall (fun k => Z.testbit (Fs.Mode info) k = false)
               [31; 27; 25; 24; 26; 21; 19]).
Proof.
  intros Hstat. eexists. split.
  - change (NewFiletypeMatcher [WithFileTypes [FT_FILE]])
      with {| FiletypeMatcher.ftypes := [FT_FILE] |}.
    rewrite (Match_single _ _ _ _ Hstat), call_FT_FILE. reflexivity.
  - rewrite Z.eqb_eq. apply land_bits_eq_0; [apply testbit_ModeType|].
    repeat constructor; lia.
Qed.

Lemma FiletypeMatcher_file_test_witness :
  exists b,
    FiletypeMatcher.Match (NewFiletypeMatcher [WithFileTypes [FT_FILE]])
      sampleFS "/r/f" = Ok b
    /\ (b = true <->
        Forall (fun k => Z.testbit 420 k = false) [31; 27; 25; 24; 26; 21; 19]).
Proof.
  apply (FiletypeMatcher_file_test sampleFS "/r/f"
           {| Fs.Mode := 420; Fs.Size := 12; Fs.ModTime := 15 |}).
  reflexivity.
Defined.

(** X7. Asked for executables only, the matcher returns true on a path
    whose stat succeeds iff the owner, group or other execute bit of the
    mode is set, whatever the type of the file. *)
Theorem FiletypeMatcher_executable_test
        (fsys : Fs.FS) (p : string) (info : Fs.FileInfo) :
  Fs.Stat fsys p = Some info ->
  exists b,
    FiletypeMatcher.Match (NewFiletypeMatcher [WithFileTypes [FT_EXECUTABLE]]) fsys p
    = Ok b
    /\ (b = true <->
        Z.testbit (Fs.Mode info) 6 = true
        \/ Z.testbit (Fs.Mode info) 3 = true
        \/ Z.testbit (Fs.Mode info) 0 = true).
Proof.
  intros Hstat. eexists. split.
  - change (NewFiletypeMatcher [WithFileTypes [FT_EXECUTABLE]])
      with {| FiletypeMatcher.ftypes := [FT_EXECUTABLE] |}.
    rewrite (Match_single _ _ _ _ Hstat), call_FT_EXECUTABLE. reflexivity.
  - change 73 with FiletypeMatcher.xmode.
    assert (Hnn : 0 <= Z.land (Fs.Mode info) FiletypeMatcher.xmode).
    { apply Z.land_nonneg. right. vm_compute. discriminate. }
    pose proof (land_bits_eq_0 (Fs.Mode info) FiletypeMatcher.xmode [6; 3; 0]
                  testbit_xmode) as Hz.
    rewrite Z.ltb_lt. split.
    + intros Hpos.
      destruct (Z.testbit (Fs.Mode info) 6) eqn:H6; [now left|].
      destruct (Z.testbit (Fs.Mode info) 3) eqn:H3; [now right; left|].
      destruct (Z.testbit (Fs.Mode info) 0) eqn:H0; [now right; right|].
      assert (Z.land (Fs.Mode info) FiletypeMatcher.xmode = 0); [|lia].
      apply Hz; repeat constructor; try lia; assumption.
    + intros Hbit.
      assert (Hne : Z.land (Fs.Mode info) FiletypeMatcher.xmode <> 0); [|lia].
      intros H0. apply Hz in H0; [|repeat constructor; lia].
      inversion H0 as [|? ? H6 H0']; subst.
      inversion H0' as [|? ? H3 H0'']; subst.
      inversion H0'' as [|? ? H00 _]; subst.
      destruct Hbit as [Hb | [Hb | Hb]]; congruence.
Qed.

Lemma FiletypeMatcher_executable_test_witness :
  exists b,
    FiletypeMatcher.Match (NewFiletypeMatcher [WithFileTypes [FT_EXECUTABLE]])
      sampleFS "/r/d" = Ok b
    /\ (b = true <->
        Z.testbit (Z.lor Fs.ModeDir 493) 6 = true
        \/ Z.testbit (Z.lor Fs.ModeDir 493) 3 = true
        \/ Z.testbit (Z.lor Fs.ModeDir 493) 0 = true).
Proof.
  apply (FiletypeMatcher_executable_test sampleFS "/r/d"
           {| Fs.Mode := Z.lor Fs.ModeDir 493; Fs.Size := 4096; Fs.ModTime := 15 |}).
  reflexivity.
Defined.

(** X8. As written, the directory, symlink, socket and named-pipe tests
    compare the masked bit with zero: asked for one of these types only, the
    matcher returns true on a path whose stat succeeds iff the bit of that
    type (31, 27, 24, 25) is clear in the mode. *)
Theorem FiletypeMatcher_type_bit_tests
        (fsys : Fs.FS) (p : string) (info : Fs.FileInfo) :
  Fs.Stat fsys p = Some info ->
  FiletypeMatcher.Match (NewFiletypeMatcher [WithFileTypes [FT_DIRECTORY]]) fsys p
  = Ok (negb (Z.testbit (Fs.Mode info) 31))
  /\ FiletypeMatcher.Match (NewFiletypeMatcher [WithFileTypes [FT_SYMLINK]]) fsys p
     = Ok (negb (Z.testbit (Fs.Mode info) 27))
  /\ FiletypeMatcher.Match (NewFiletypeMatcher [WithFileTypes [FT_SOCKET]]) fsys p
     = Ok (negb (Z.testbit (Fs.Mode info) 24))
  /\ FiletypeMatcher.Match (NewFiletypeMatcher [WithFileTypes [FT_PIPE]]) fsys p
     = Ok (negb (Z.testbit (Fs.Mode info) 25)).
Proof.
  intros Hstat.
  repeat split;
    match goal with
    | |- FiletypeMatcher.Match (NewFiletypeMatcher [WithFileTypes [?ft]]) _ _ = _ =>
        change (NewFiletypeMatcher [WithFileTypes [ft]])
          with {| FiletypeMatcher.ftypes := [ft] |}
    end;
    rewrite (Match_single _ _ _ _ Hstat).
  - rewrite call_FT_DIRECTORY. unfold Fs.ModeDir.
    rewrite Z.shiftl_1_l, land_pow2_eqb_0 by lia. reflexivity.
  - rewrite call_FT_SYMLINK. unfold Fs.ModeSymlink.
    rewrite Z.shiftl_1_l, land_pow2_eqb_0 by lia. reflexivity.
  - rewrite call_FT_SOCKET. unfold Fs.ModeSocket.
    rewrite Z.shiftl_1_l, land_pow2_eqb_0 by lia. reflexivity.
  - rewrite call_FT_PIPE. unfold Fs.ModeNamedPipe.
    rewrite Z.shiftl_1_l, land_pow2_eqb_0 by lia. reflexivity.
Qed.

Lemma FiletypeMatcher_type_bit_tests_witness :
  FiletypeMatcher.Match (NewFiletypeMatcher [WithFileTypes [FT_SYMLINK]])
    sampleFS "/r/f" = Ok (negb (Z.testbit 420 27)).
Proof.
  apply (proj1 (proj2 (FiletypeMatcher_type_bit_tests sampleFS "/r/f"
           {| Fs.Mode := 420; Fs.Size := 12; Fs.ModTime := 15 |} eq_refl))).
Defined.

Lemma ModeType_eqb_0 (mode : Z) :
  (Z.land mode Fs.ModeType =? 0) = true
  <-> Forall (fun k => Z.testbit mode k = false) [31; 27; 25; 24; 26; 21; 19].
Proof.
  rewrite Z.eqb_eq. apply land_bits_eq_0; [apply testbit_ModeType|].
  repeat constructor; lia.
Qed.

Lemma ModeDir_eqb_0 (mode : Z) :
  (Z.land mode Fs.ModeDir =? 0) = negb (Z.testbit mode 31).
Proof.
  unfold Fs.ModeDir. rewrite Z.shiftl_1_l. apply land_pow2_eqb_0. lia.
Qed.

(** X9. Asked for empty entries only, on a path whose stat succeeds: a
    regular file (no type bit set) matches iff its size is 0, and the
    directory listing plays no part; as written, an entry with the directory
    bit set never matches; any other entry matches iff listing it succeeds
    and gives no entry. *)
Theorem FiletypeMatcher_empty_test (fsys : Fs.FS) (p : string) (info : Fs.FileInfo) :
  Fs.Stat fsys p = Some info ->
  (Forall (fun k => Z.testbit (Fs.Mode info) k = false) [31; 27; 25; 24; 26; 21; 19] ->
   FiletypeMatcher.Match (NewFiletypeMatcher [WithFileTypes [FT_EMPTY]]) fsys p
   = Ok (Fs.Size info =? 0))
  /\ (Z.testbit (Fs.Mode info) 31 = true ->
      FiletypeMatcher.Match (NewFiletypeMatcher [WithFileTypes [FT_EMPTY]]) fsys p
      = Ok false)
  /\ (Z.testbit (Fs.Mode info) 31 = false ->
      ~ Forall (fun k => Z.testbit (Fs.Mode info) k = false)
               [31; 27; 25; 24; 26; 21; 19] ->
      FiletypeMatcher.Match (NewFiletypeMatcher [WithFileTypes [FT_EMPTY]]) fsys p
      = Ok match Fs.ReadDir fsys p with
           | None => false
           | Some des => (List.length des =? 0)%nat
           end).
Proof.
  intros Hstat.
  change (NewFiletypeMatcher [WithFileTypes [FT_EMPTY]])
    with {| FiletypeMatcher.ftypes := [FT_EMPTY] |}.
  rewrite (Match_single _ _ _ _ Hstat), call_FT_EMPTY. cbn [bind].
  rewrite ModeDir_eqb_0.
  split; [|split].
  - intros Hreg. apply ModeType_eqb_0 in Hreg. now rewrite Hreg.
  - intros Hdir. rewrite Hdir. cbn [negb].
    destruct (Z.land (Fs.Mode info) Fs.ModeType =? 0) eqn:Hreg; [|reflexivity].
    apply ModeType_eqb_0 in Hreg. inversion Hreg; congruence.
  - intros Hdir Hnot. rewrite Hdir. cbn [negb].
    destruct (Z.land (Fs.Mode info) Fs.ModeType =? 0) eqn:Hreg; [|reflexivity].
    apply ModeType_eqb_0 in Hreg. contradiction.
Qed.

Lemma FiletypeMatcher_empty_test_witness :
  FiletypeMatcher.Match (NewFiletypeMatcher [WithFileTypes [FT_EMPTY]])
    sampleFS "/r/f" = Ok (12 =? 0).
Proof.
  apply (proj1 (FiletypeMatcher_empty_test sampleFS "/r/f"
           {| Fs.Mode := 420; Fs.Size := 12; Fs.ModTime := 15 |} eq_refl)).
  repeat constructor.
Defined.

(** ** FiletypeMatcher: the set of requested types *)

Lemma call_known (fsys : Fs.FS) (p : string) (info : Fs.FileInfo) (ft : FileType) :
  knownType ft = true ->
  exists b, FiletypeMatcher.call (FiletypeMatcher.fnsOf fsys p info) ft = Ok b.
Proof.
  unfold knownType, knownTypes. cbn [existsb].
  rewrite !orb_true_iff, !String.eqb_eq.
  intros [->|[->|[->|[->|[->|[->|[->|H]]]]]]]; try discriminate.
  - rewrite call_FT_FILE. eexists; reflexivity.
  - rewrite call_FT_DIRECTORY. eexists; reflexivity.
  - rewrite call_FT_SYMLINK. eexists; reflexivity.
  - rewrite call_FT_EXECUTABLE. eexists; reflexivity.
  - rewrite call_FT_EMPTY. eexists; reflexivity.
  - rewrite call_FT_SOCKET. eexists; reflexivity.
  - rewrite call_FT_PIPE. eexists; reflexivity.
Qed.

Lemma call_not_known (fsys : Fs.FS) (p : string) (info : Fs.FileInfo) (ft : FileType) :
  knownType ft = false ->
  FiletypeMatcher.call (FiletypeMatcher.fnsOf fsys p info) ft = Panicked nil_call.
Proof.
  unfold knownType, knownTypes. cbn [existsb].
  rewrite !orb_false_iff. intros (Hf & Hd & Hl & Hx & He & Hs & Hp & _).
  unfold FiletypeMatcher.call, FiletypeMatcher.fnsOf, FiletypeMatcher.fnsLiteral.
  cbn [FiletypeMatcher.lookup].
  rewrite (String.eqb_sym FT_EMPTY), He, (String.eqb_sym FT_FILE), Hf,
    (String.eqb_sym FT_DIRECTORY), Hd, (String.eqb_sym FT_SYMLINK), Hl,
    (String.eqb_sym FT_EXECUTABLE), Hx, (String.eqb_sym FT_SOCKET), Hs,
    (String.eqb_sym FT_PIPE), Hp.
  reflexivity.
Qed.

Lemma anyType_known (fns : FiletypeMatcher.table) (fts : list FileType) :
  (forall ft, In ft fts -> exists b, FiletypeMatcher.call fns ft = Ok b) ->
  FiletypeMatcher.anyType fns fts
  = Ok (existsb (fun ft => match FiletypeMatcher.call fns ft with
                           | Ok b => b
                           | Panicked _ => false
                           end) fts).
Proof.
  induction fts as [|ft rest IH]; intros Hall; simpl; [reflexivity|].
  destruct (Hall ft (or_introl eq_refl)) as [b ->]. simpl.
  destruct b; [reflexivity|]. apply IH. intros ft' Hin. apply Hall. now right.
Qed.

Lemma existsb_same_elements {A} (f : A -> bool) (l l' : list A) :
  (forall x, In x l <-> In x l') -> existsb f l = existsb f l'.
Proof.
  intros Hsame. apply eq_true_iff_eq. rewrite !existsb_exists.
  split; intros (x & Hin & Hx); exists x; (split; [now apply Hsame | exact Hx]).
Qed.

(** X10. When every requested tag is one of the seven constants, the
    matcher does not panic on a path whose stat succeeds, and it returns
    true iff the test of at least one requested tag holds. *)
Theorem FiletypeMatcher_or_of_tests
        (m : FiletypeMatcher.t) (fsys : Fs.FS) (p : string) (info : Fs.FileInfo) :
  Forall (fun ft => knownType ft = true) (FiletypeMatcher.ftypes m) ->
  FiletypeMatcher.ftypes m <> [] ->
  Fs.Stat fsys p = Some info ->
  exists b,
    FiletypeMatcher.Match m fsys p = Ok b
    /\ (b = true <->
        exists ft, In ft (FiletypeMatcher.ftypes m)
                   /\ FiletypeMatcher.call (FiletypeMatcher.fnsOf fsys p info) ft
                      = Ok true).
Proof.
  intros Hknown Hne Hstat. unfold FiletypeMatcher.Match. rewrite Hstat.
  destruct (FiletypeMatcher.ftypes m) as [|ft0 rest] eqn:Hfts; [congruence|].
  cbn [List.length Nat.eqb]. apply anyType_or.
  intros ft Hin. apply call_known. rewrite Forall_forall in Hknown. now apply Hknown.
Qed.

Lemma FiletypeMatcher_or_of_tests_witness :
  exists b,
    FiletypeMatcher.Match
      (NewFiletypeMatcher [WithFileTypes [FT_PIPE; FT_EXECUTABLE]]) sampleFS "/r/d"
    = Ok b
    /\ (b = true <->
        exists ft, In ft [FT_PIPE; FT_EXECUTABLE]
                   /\ FiletypeMatcher.call
                        (FiletypeMatcher.fnsOf sampleFS "/r/d"
                           {| Fs.Mode := Z.lor Fs.ModeDir 493; Fs.Size := 4096;
                              Fs.ModTime := 15 |}) ft
                      = Ok true).
Proof.
  apply (FiletypeMatcher_or_of_tests
           (NewFiletypeMatcher [WithFileTypes [FT_PIPE; FT_EXECUTABLE]])
           sampleFS "/r/d").
  - repeat constructor.
  - discriminate.
  - reflexivity.
Defined.

(** X11. Two type sets of known tags with the same elements give the same
    answer on every file system and path: neither the order of the tags nor
    a repeated tag matters. *)
Theorem FiletypeMatcher_same_tags_same_answer
        (m m' : FiletypeMatcher.t) (fsys : Fs.FS) (p : string) :
  Forall (fun ft => knownType ft = true) (FiletypeMatcher.ftypes m) ->
  (forall ft, In ft (FiletypeMatcher.ftypes m) <-> In ft (FiletypeMatcher.ftypes m')) ->
  FiletypeMatcher.Match m fsys p = FiletypeMatcher.Match m' fsys p.
Proof.
  intros Hknown Hsame. unfold FiletypeMatcher.Match.
  destruct (FiletypeMatcher.ftypes m) as [|ft0 rest] eqn:Hm;
    destruct (FiletypeMatcher.ftypes m') as [|ft0' rest'] eqn:Hm'.
  - reflexivity.
  - exfalso. apply (proj2 (Hsame ft0')). now left.
  - exfalso. apply (proj1 (Hsame ft0)). now left.
  - cbn [List.length Nat.eqb].
    destruct (Fs.Stat fsys p) as [info|]; [|reflexivity].
    rewrite Forall_forall in Hknown.
    rewrite !anyType_known.
    + f_equal. now apply existsb_same_elements.
    + intros ft Hin. apply call_known, Hknown, Hsame, Hin.
    + intros ft Hin. apply call_known, Hknown, Hin.
Qed.

Lemma FiletypeMatcher_same_tags_same_answer_witness :
  FiletypeMatcher.Match
    (NewFiletypeMatcher [WithFileTypes [FT_SOCKET; FT_EMPTY]]) sampleFS "/r/d"
  = FiletypeMatcher.Match
      (NewFiletypeMatcher [WithFileTypes [FT_EMPTY; FT_SOCKET; FT_EMPTY]])
      sampleFS "/r/d".
Proof.
  apply (FiletypeMatcher_same_tags_same_answer
           (NewFiletypeMatcher [WithFileTypes [FT_SOCKET; FT_EMPTY]])
           (NewFiletypeMatcher [WithFileTypes [FT_EMPTY; FT_SOCKET; FT_EMPTY]])).
  - repeat constructor.
  - intros ft; simpl; tauto.
Defined.

(** X12. A tag that is not one of the seven constants has no entry in the
    map: on a path whose stat succeeds the matcher panics with a nil call
    when the loop reaches such a tag, that is when no known tag before it
    holds; when one does, it returns true before reaching it. *)
Theorem FiletypeMatcher_unknown_tag
        (before after : list FileType) (ft : FileType)
        (fsys : Fs.FS) (p : string) (info : Fs.FileInfo) :
  knownType ft = false ->
  Forall (fun ft' => knownType ft' = true) before ->
  Fs.Stat fsys p = Some info ->
  FiletypeMatcher.Match
    (NewFiletypeMatcher [WithFileTypes (before ++ ft :: after)]) fsys p
  = if existsb (fun ft' =>
                  match FiletypeMatcher.call (FiletypeMatcher.fnsOf fsys p info) ft' with
                  | Ok b => b
                  | Panicked _ => false
                  end) before
    then Ok true
    else Panicked nil_call.
Proof.
  intros Hunk Hknown Hstat.
  change (NewFiletypeMatcher [WithFileTypes (before ++ ft :: after)])
    with {| FiletypeMatcher.ftypes := (before ++ ft :: after)%list |}.
  unfold FiletypeMatcher.Match. cbn [FiletypeMatcher.ftypes]. rewrite Hstat.
  destruct (before ++ ft :: after)%list eqn:Hl; [now destruct before|].
  cbn [List.length Nat.eqb]. rewrite <- Hl. clear Hl.
  induction before as [|ft' rest IH]; simpl.
  - now rewrite call_not_known.
  - inversion Hknown as [|? ? Hk Hrest]; subst.
    destruct (call_known fsys p info ft' Hk) as [b ->]. simpl.
    destruct b; [reflexivity | now apply IH].
Qed.

Lemma FiletypeMatcher_unknown_tag_witness :
  FiletypeMatcher.Match
    (NewFiletypeMatcher [WithFileTypes [FT_DIRECTORY; "z"; FT_FILE]]) sampleFS "/r/d"
  = Panicked nil_call.
Proof.
  apply (FiletypeMatcher_unknown_tag [FT_DIRECTORY] [FT_FILE] "z" sampleFS "/r/d"
           {| Fs.Mode := Z.lor Fs.ModeDir 493; Fs.Size := 4096; Fs.ModTime := 15 |}).
  - reflexivity.
  - repeat constructor.
  - reflexivity.
Defined.

(** ** The assertions on the bounds *)

(** X13. The change-time matcher panics iff the stat succeeds, both cutoffs
    are set and [older] is not strictly before [newer]; the message is that
    of line 193. *)
Theorem ChangeTimeMatcher_panics_iff
        (m : ChangeTimeMatcher.t) (fsys : Fs.FS) (p : string) (msg : string) :
  ChangeTimeMatcher.Match m fsys p = Panicked msg <->
  msg = "todo"
  /\ exists info o n,
      Fs.Stat fsys p = Some info
      /\ ChangeTimeMatcher.older m = Some o
      /\ ChangeTimeMatcher.newer m = Some n
      /\ n <= o.
Proof.
  unfold ChangeTimeMatcher.Match, assert, Time.Before.
  destruct (ChangeTimeMatcher.older m) as [o|], (ChangeTimeMatcher.newer m) as [n|],
    (Fs.Stat fsys p) as [info|]; simpl;
    try (split; [discriminate | intros (_ & ? & ? & ? & ? & ? & ? & _); discriminate]).
  destruct (Z.ltb_spec o n); simpl.
  - split; [discriminate|].
    intros (_ & ? & o' & n' & _ & [= <-] & [= <-] & Hle). lia.
  - split.
    + intros [= <-]. split; [reflexivity|]. exists info, o, n. auto.
    + intros [-> _]. reflexivity.
Qed.

(** X14. The size matcher panics iff the stat succeeds, max is set and min
    is above max; with max unset, or on a path whose stat fails, an
    ill-ordered pair of bounds goes unnoticed. *)
Theorem SizeMatcher_panics_iff
        (m : SizeMatcher.t) (fsys : Fs.FS) (p : string) (msg : string) :
  SizeMatcher.Match m fsys p = Panicked msg <->
  msg = "todo"
  /\ Fs.Stat fsys p <> None
  /\ 0 <= SizeMatcher.max m < SizeMatcher.min m.
Proof.
  unfold SizeMatcher.Match, assert.
  destruct (Z.ltb_spec (SizeMatcher.min m) 0), (Z.ltb_spec (SizeMatcher.max m) 0);
    simpl; try (split; [discriminate | intros (_ & _ & ?); lia]).
  - destruct (Fs.Stat fsys p) as [info|];
      [|split; [discriminate | intros (_ & ? & _); congruence]].
    destruct (Z.leb_spec 0 (SizeMatcher.max m)); [|lia].
    destruct (Z.leb_spec (SizeMatcher.min m) (SizeMatcher.max m)); [|lia].
    destruct (0 <=? SizeMatcher.min m); simpl;
      (split; [discriminate | intros (_ & _ & ?); lia]).
  - destruct (Fs.Stat fsys p) as [info|];
      [|split; [discriminate | intros (_ & ? & _); congruence]].
    destruct (Z.leb_spec 0 (SizeMatcher.max m)); [lia|].
    destruct (0 <=? SizeMatcher.min m); simpl;
      (split; [discriminate | intros (_ & _ & ?); lia]).
  - destruct (Fs.Stat fsys p) as [info|];
      [|split; [discriminate | intros (_ & ? & _); congruence]].
    destruct (Z.leb_spec 0 (SizeMatcher.max m)); [|lia].
    destruct (Z.leb_spec 0 (SizeMatcher.min m)); [|lia].
    destruct (Z.leb_spec (SizeMatcher.min m) (SizeMatcher.max m)); simpl.
    + split; [discriminate | intros (_ & _ & ?); lia].
    + split.
      * intros [= <-]. repeat split; try lia. discriminate.
      * intros (-> & _). reflexivity.
Qed.

(** X15. The depth matcher panics iff max is set and min is above max, and
    then it does so on every path and file system. *)
Theorem DepthMatcher_panics_iff
        (m : DepthMatcher.t) (fsys : Fs.FS) (p : string) (msg : string) :
  DepthMatcher.Match m fsys p = Panicked msg <->
  msg = "todo" /\ 0 <= DepthMatcher.max m < DepthMatcher.min m.
Proof.
  unfold DepthMatcher.Match, assert.
  destruct (Z.leb_spec 0 (DepthMatcher.max m)).
  - destruct (Z.leb_spec (DepthMatcher.min m) (DepthMatcher.max m)); simpl.
    + destruct (0 <=? DepthMatcher.min m);
        (split; [discriminate | intros (_ & ?); lia]).
    + split.
      * intros [= <-]. split; [reflexivity | lia].
      * intros (-> & _). reflexivity.
  - destruct (0 <=? DepthMatcher.min m);
      (split; [discriminate | intros (_ & ?); lia]).
Qed.

(** ** DepthMatcher: what the depth counts *)

Lemma Split_length (sep : ascii) (s : string) :
  List.length (Strings.Split sep s) = S (countByte sep s).
Proof.
  unfold countByte, Strings.bytes.
  induction s as [|c s IH]; simpl; [reflexivity|].
  rewrite (Ascii.eqb_sym sep c). destruct (Ascii.eqb c sep); simpl.
  - now rewrite IH.
  - destruct (Strings.Split sep s) as [|h t] eqn:Hs; simpl in *; [discriminate|].
    exact IH.
Qed.

Lemma cleanStep_not_empty rooted out elem :
  Forall (fun e => e <> "") out ->
  Forall (fun e => e <> "") (Filepath.cleanStep rooted out elem).
Proof.
  intros Hout. unfold Filepath.cleanStep.
  destruct (String.eqb_spec elem ""); [exact Hout|].
  destruct (String.eqb elem "."); [exact Hout|].
  destruct (String.eqb elem "..").
  - destruct out as [|top below].
    + destruct rooted; [exact Hout | now constructor].
    + destruct (String.eqb top "..").
      * destruct rooted; [exact Hout | now constructor].
      * now inversion Hout.
  - now constructor.
Qed.

Lemma cleanFold_not_empty rooted elems : forall out,
  Forall (fun e => e <> "") out ->
  Forall (fun e => e <> "") (fold_left (Filepath.cleanStep rooted) elems out).
Proof.
  induction elems as [|e rest IH]; intros out Hout; simpl; [exact Hout|].
  apply IH. now apply cleanStep_not_empty.
Qed.

(** [Clean] never returns the empty string. *)
Lemma Clean_not_empty (path : string) : Filepath.Clean path <> "".
Proof.
  unfold Filepath.Clean. destruct path as [|c0 rest] eqn:Hpath; [discriminate|].
  rewrite <- Hpath. clear Hpath rest.
  set (rooted := Filepath.IsPathSeparator c0).
  pose proof (cleanFold_not_empty rooted (Strings.Split Filepath.Separator path) []
                (Forall_nil _)) as Hout.
  set (out := fold_left (Filepath.cleanStep rooted)
                        (Strings.Split Filepath.Separator path) []) in *.
  destruct rooted; [discriminate|].
  destruct out as [|top below] eqn:Hout_eq; [discriminate|].
  rewrite <- Hout_eq in *. apply Forall_rev in Hout.
  destruct (rev out) as [|e r] eqn:Hrev.
  - apply (f_equal (@List.length string)) in Hrev.
    rewrite length_rev, Hout_eq in Hrev. discriminate.
  - apply Join_not_empty. now inversion Hout.
Qed.

Lemma SplitList_Clean_length (path : string) :
  List.length (Filepath.SplitList (Filepath.Clean path))
  = S (countByte Filepath.ListSeparator (Filepath.Clean path)).
Proof.
  pose proof (Clean_not_empty path) as Hne. unfold Filepath.SplitList.
  destruct (Filepath.Clean path) eqn:Hc; [congruence|]. apply Split_length.
Qed.

Lemma NewDepthMatcher_cur (root : string) (cs : list OptionCall) :
  DepthMatcher.cur (NewDepthMatcher root (map toOption cs))
  = Filepath.SplitList (Filepath.Clean root).
Proof.
  unfold NewDepthMatcher.
  destruct (applyOptions_OfDepth cs
              {| DepthMatcher.cur := Filepath.SplitList (Filepath.Clean root);
                 DepthMatcher.min := -1; DepthMatcher.max := -1 |})
    as (dm' & -> & Hcur).
  exact Hcur.
Qed.

Lemma depth_formula (root : string) (cs : list OptionCall) (p : string) :
  DepthMatcher.depth (NewDepthMatcher root (map toOption cs)) p
  = Z.of_nat (countByte Filepath.ListSeparator (Filepath.Clean root))
    - Z.of_nat (countByte Filepath.ListSeparator (Filepath.Clean p)).
Proof.
  unfold DepthMatcher.depth. rewrite NewDepthMatcher_cur, !SplitList_Clean_length. lia.
Qed.

Lemma countByte_absent (c : ascii) (s : string) :
  hasByte c s = false -> countByte c s = 0%nat.
Proof.
  unfold hasByte, countByte. induction (Strings.bytes s) as [|x l IH]; simpl;
    [reflexivity|].
  rewrite orb_false_iff. intros [-> Hl]. now apply IH.
Qed.

(** X16. Whatever the options, the depth the matcher computes for a path is
    the number of colons in the cleaned root minus the number of colons in
    the cleaned path: the elements it counts are those of a colon-separated
    list, not the components between slashes. *)
Theorem DepthMatcher_depth_counts_colons
        (root : string) (cs : list OptionCall) (p : string) :
  DepthMatcher.depth (NewDepthMatcher root (map toOption cs)) p
  = Z.of_nat (countByte ":" (Filepath.Clean root))
    - Z.of_nat (countByte ":" (Filepath.Clean p)).
Proof.
  unfold DepthMatcher.depth.
  rewrite NewDepthMatcher_cur, !SplitList_Clean_length.
  change Filepath.ListSeparator with ":"%char. lia.
Qed.

(** X17. Under a root without a colon, the matcher gives one and the same
    answer for all paths without a colon, however deep they are, and that
    answer is the one for depth 0. *)
Theorem DepthMatcher_constant_on_plain_paths
        (root : string) (cs : list OptionCall) (fsys fsys' : Fs.FS) (p p' : string) :
  hasByte ":" root = false ->
  hasByte ":" p = false ->
  hasByte ":" p' = false ->
  DepthMatcher.depth (NewDepthMatcher root (map toOption cs)) p = 0
  /\ DepthMatcher.Match (NewDepthMatcher root (map toOption cs)) fsys p
     = DepthMatcher.Match (NewDepthMatcher root (map toOption cs)) fsys' p'.
Proof.
  intros Hroot Hp Hp'.
  assert (Hzero : forall q, hasByte ":" q = false ->
            DepthMatcher.depth (NewDepthMatcher root (map toOption cs)) q = 0).
  { intros q Hq. rewrite depth_formula.
    rewrite !countByte_absent; [reflexivity | |];
      apply (Clean_kept Filepath.ListSeparator eq_refl eq_refl); assumption. }
  split; [now apply Hzero|].
  unfold DepthMatcher.Match. now rewrite !Hzero.
Qed.

Lemma DepthMatcher_constant_on_plain_paths_witness :
  DepthMatcher.depth (NewDepthMatcher "/r" (map toOption [CallWithMinDepth 2]))
    "/r/a/b/c" = 0
  /\ DepthMatcher.Match (NewDepthMatcher "/r" (map toOption [CallWithMinDepth 2]))
       sampleFS "/r/a/b/c"
     = DepthMatcher.Match (NewDepthMatcher "/r" (map toOption [CallWithMinDepth 2]))
         sampleFS "/r".
Proof.
  apply (DepthMatcher_constant_on_plain_paths "/r" [CallWithMinDepth 2]
           sampleFS sampleFS "/r/a/b/c" "/r"); reflexivity.
Defined.

(** X18. Under a root without a colon, a matcher for the exact depth d >= 0
    accepts a path without a colon iff d = 0; a matcher with only a minimum
    depth d >= 1 rejects all of them, and one with only a maximum depth
    d >= 0 accepts all of them. *)
Theorem DepthMatcher_bounds_on_plain_paths
        (root : string) (d : Z) (fsys : Fs.FS) (p : string) :
  hasByte ":" root = false ->
  hasByte ":" p = false ->
  0 <= d ->
  DepthMatcher.Match (NewDepthMatcher root [WithExactDepth d]) fsys p = Ok (d =? 0)
  /\ (1 <= d ->
      DepthMatcher.Match (NewDepthMatcher root [WithMinDepth d]) fsys p = Ok false)
  /\ DepthMatcher.Match (NewDepthMatcher root [WithMaxDepth d]) fsys p = Ok true.
Proof.
  intros Hroot Hp Hd.
  assert (Hzero : forall cs,
            DepthMatcher.depth (NewDepthMatcher root (map toOption cs)) p = 0).
  { intros cs. rewrite depth_formula.
    rewrite !countByte_absent; [reflexivity | |];
      apply (Clean_kept Filepath.ListSeparator eq_refl eq_refl); assumption. }
  pose proof (Hzero [CallWithExactDepth d]) as He.
  pose proof (Hzero [CallWithMinDepth d]) as Hmin.
  pose proof (Hzero [CallWithMaxDepth d]) as Hmax.
  cbn [map toOption] in He, Hmin, Hmax.
  assert (H0d : (0 <=? d) = true) by (apply Z.leb_le; exact Hd).
  assert (H1d : (-1 <=? d) = true) by (apply Z.leb_le; lia).
  unfold DepthMatcher.Match. rewrite He, Hmin, Hmax.
  cbn [NewDepthMatcher applyOptions fold_left WithExactDepth WithMinDepth WithMaxDepth
       DepthMatcher.min DepthMatcher.max DepthMatcher.cur].
  rewrite H0d, H1d, Z.leb_refl. change (0 <=? -1) with false. cbn [assert bind andb].
  split; [|split].
  - f_equal. destruct (Z.leb_spec d 0), (Z.eqb_spec d 0); simpl; lia || reflexivity.
  - intros H1. f_equal. apply Z.leb_gt. lia.
  - reflexivity.
Qed.

Lemma DepthMatcher_bounds_on_plain_paths_witness :
  DepthMatcher.Match (NewDepthMatcher "/r" [WithMaxDepth 1]) sampleFS "/r/a/b/c/d"
  = Ok true.
Proof.
  apply (proj2 (proj2 (DepthMatcher_bounds_on_plain_paths "/r" 1 sampleFS "/r/a/b/c/d"
                         eq_refl eq_refl ltac:(lia)))).
Defined.

(** ** MaxResultMatcher: fewer calls than the cap, and the counter *)

Lemma run_length (m : MaxResultMatcher.t) fsys paths :
  List.length (fst (MaxResultMatcher.run m fsys paths)) = List.length paths.
Proof.
  revert m. induction paths as [|p rest IH]; intros m; simpl; [reflexivity|].
  destruct (MaxResultMatcher.Match m fsys p) as [b m1].
  specialize (IH m1). destruct (MaxResultMatcher.run m1 fsys rest) as [bs m2].
  simpl in *. now rewrite IH.
Qed.

(** X19. While the number of calls does not exceed the cap, every call
    returns true and the counter ends at the number of calls made. *)
Theorem MaxResultMatcher_under_cap (k : Z) (fsys : Fs.FS) (paths : list string) :
  0 <= k <= maxInt ->
  Z.of_nat (List.length paths) <= k ->
  MaxResultMatcher.run (NewMaxResultMatcher [WithMaxResult k]) fsys paths
  = (repeat true (List.length paths),
     {| MaxResultMatcher.count := Z.of_nat (List.length paths);
        MaxResultMatcher.max := k |}).
Proof.
  intros Hk Hlen.
  change (NewMaxResultMatcher [WithMaxResult k])
    with {| MaxResultMatcher.count := 0; MaxResultMatcher.max := k |}.
  assert (Hgen : forall c : Z,
             0 <= c -> c + Z.of_nat (List.length paths) <= k ->
             MaxResultMatcher.run
               {| MaxResultMatcher.count := c; MaxResultMatcher.max := k |} fsys paths
             = (repeat true (List.length paths),
                {| MaxResultMatcher.count := c + Z.of_nat (List.length paths);
                   MaxResultMatcher.max := k |})).
  { induction paths as [|p rest IH]; intros c Hc Hsum.
    - simpl. now rewrite Z.add_0_r.
    - cbn [List.length] in *. cbn [MaxResultMatcher.run].
      rewrite MaxResultMatcher_below by (simpl; lia).
      cbn [MaxResultMatcher.count MaxResultMatcher.max].
      rewrite IH by lia. cbn [repeat]. f_equal. f_equal. lia. }
  rewrite Hgen by lia. reflexivity.
Qed.

Lemma MaxResultMatcher_under_cap_witness :
  MaxResultMatcher.run (NewMaxResultMatcher [WithMaxResult 5]) sampleFS
    ["/r/p1"; "/r/p2"]
  = ([true; true], {| MaxResultMatcher.count := 2; MaxResultMatcher.max := 5 |}).
Proof.
  apply (MaxResultMatcher_under_cap 5 sampleFS ["/r/p1"; "/r/p2"]).
  - unfold maxInt. lia.
  - simpl. lia.
Defined.

(** X20. From any state with 0 <= count <= max, a run of calls leaves max
    as it is, raises the counter by exactly the number of calls that returned
    true, and never takes it above max. *)
Theorem MaxResultMatcher_counter_invariant
        (m : MaxResultMatcher.t) (fsys : Fs.FS) (paths : list string) :
  0 <= MaxResultMatcher.count m <= MaxResultMatcher.max m ->
  MaxResultMatcher.max m <= maxInt ->
  MaxResultMatcher.max (snd (MaxResultMatcher.run m fsys paths))
  = MaxResultMatcher.max m
  /\ MaxResultMatcher.count (snd (MaxResultMatcher.run m fsys paths))
     = MaxResultMatcher.count m
       + Z.of_nat (countTrue (fst (MaxResultMatcher.run m fsys paths)))
  /\ MaxResultMatcher.count (snd (MaxResultMatcher.run m fsys paths))
     <= MaxResultMatcher.max m.
Proof.
  revert m. induction paths as [|p rest IH]; intros m Hc Hmax.
  - simpl. repeat split; lia.
  - cbn [MaxResultMatcher.run].
    destruct (Z.eq_dec (MaxResultMatcher.count m) (MaxResultMatcher.max m)) as [Heq|Hne].
    + rewrite MaxResultMatcher_reached by lia.
      specialize (IH m Hc Hmax).
      destruct (MaxResultMatcher.run m fsys rest) as [bs m2].
      unfold countTrue in *. simpl in *. exact IH.
    + rewrite MaxResultMatcher_below by lia.
      specialize (IH {| MaxResultMatcher.count := MaxResultMatcher.count m + 1;
                        MaxResultMatcher.max := MaxResultMatcher.max m |}).
      cbn [MaxResultMatcher.count MaxResultMatcher.max] in IH.
      specialize (IH ltac:(lia) Hmax).
      destruct (MaxResultMatcher.run _ fsys rest) as [bs m2].
      unfold countTrue in *. cbn [fst snd filter List.length] in *.
      destruct IH as (H1 & H2 & H3). repeat split; lia.
Qed.

Lemma MaxResultMatcher_counter_invariant_witness :
  MaxResultMatcher.count
    (snd (MaxResultMatcher.run
            {| MaxResultMatcher.count := 1; MaxResultMatcher.max := 2 |}
            sampleFS ["/r/p1"; "/r/p2"; "/r/p3"]))
  <= 2.
Proof.
  apply (proj2 (proj2 (MaxResultMatcher_counter_invariant
           {| MaxResultMatcher.count := 1; MaxResultMatcher.max := 2 |}
           sampleFS ["/r/p1"; "/r/p2"; "/r/p3"]
           ltac:(simpl; lia) ltac:(unfold maxInt; simpl; lia)))).
Defined.

(** ** MultiMatcher: composition *)

Section CompositionProps.

Variable W : Type.
Variables (fsys : Fs.FS) (path : string).

Implicit Types (vs : list (Matcher W)) (v : Matcher W) (w : W).

(** The run over [a ++ b] is the run over [a], continued over [b] on the
    memory left when [a] accepts. *)
Lemma matchAll_app a b : forall w,
  matchAll (a ++ b)%list fsys path w
  = match matchAll a fsys path w with
    | Ok (true, w1) => matchAll b fsys path w1
    | r => r
    end.
Proof.
  induction a as [|v rest IH]; intros w; simpl; [reflexivity|].
  destruct (v fsys path w) as [[[|] w1]|msg]; simpl; [apply IH | reflexivity..].
Qed.

Lemma matchAll_pure (fs : list (Fs.FS -> string -> bool)) : forall w,
  matchAll (map pureMatcher fs) fsys path w
  = Ok (forallb (fun f => f fsys path) fs, w).
Proof.
  induction fs as [|f rest IH]; intros w; simpl; [reflexivity|].
  unfold pureMatcher at 1. simpl.
  destruct (f fsys path); simpl; [apply IH | reflexivity].
Qed.

End CompositionProps.

(** X21. [Add] composes: adding [a] and then [b] is adding [a ++ b], and
    adding nothing changes nothing.  A composite that rejects a path or
    panics on it does the same after any [Add]; one that accepts it goes on
    with the added matchers, on the memory it left. *)
Theorem MultiMatcher_Add_extends (W : Type) (m : MultiMatcher W) :
  (forall a b, Add (Add m a) b = Add m (a ++ b)%list)
  /\ Add m [] = m
  /\ (forall new fsys p w,
         Match (Add m new) fsys p w
         = match Match m fsys p w with
           | Ok (true, w1) => matchAll new fsys p w1
           | r => r
           end).
Proof.
  split; [|split].
  - intros a b. unfold Add; simpl. now rewrite app_assoc.
  - destruct m as [l]. unfold Add; simpl. now rewrite app_nil_r.
  - intros new fsys p w. unfold Match, Add; simpl. apply matchAll_app.
Qed.

(** X22. A composite registered inside another behaves as if its matchers
    were registered in its place. *)
Theorem MultiMatcher_nested_is_spliced
        (W : Type) (inner : MultiMatcher W) (before after : list (Matcher W))
        (fsys : Fs.FS) (p : string) (w : W) :
  Match {| ms := before ++ Match inner :: after |} fsys p w
  = Match {| ms := before ++ ms inner ++ after |} fsys p w.
Proof.
  unfold Match; simpl. rewrite !matchAll_app.
  destruct (matchAll before fsys p w) as [[[|] w1]|msg]; try reflexivity.
  change (Match inner :: after)%list with ([Match inner] ++ after)%list.
  rewrite !matchAll_app. simpl. unfold Match.
  destruct (matchAll (ms inner) fsys p w1) as [[[|] w2]|msg]; reflexivity.
Qed.

(** X23. A composite of stateless matchers that do not panic returns the
    conjunction of their answers and leaves the memory untouched; two such
    composites with the same matchers, in any order and number, agree on
    every path. *)
Theorem MultiMatcher_stateless_is_conjunction
        (W : Type) (fs fs' : list (Fs.FS -> string -> bool))
        (fsys : Fs.FS) (p : string) (w : W) :
  Match {| ms := map pureMatcher fs |} fsys p w
  = Ok (forallb (fun f => f fsys p) fs, w)
  /\ ((forall f, In f fs <-> In f fs') ->
      Match {| ms := map pureMatcher fs |} fsys p w
      = Match {| ms := map pureMatcher fs' |} fsys p w).
Proof.
  unfold Match; simpl. rewrite !matchAll_pure. split; [reflexivity|].
  intros Hsame. do 2 f_equal. apply eq_true_iff_eq. rewrite !forallb_forall.
  split; intros H f Hin; apply H, Hsame, Hin.
Qed.

Lemma MultiMatcher_stateless_is_conjunction_witness :
  Match {| ms := map pureMatcher
                   [HiddenMatcher.Match (NewHiddenMatcher [WithHidden true]);
                    SuffixMatcher.Match lowerASCIIOnly
                      (NewSuffixMatcher [WithSuffixes [".go"]])] |}
    sampleFS "/r/a/main.go" tt
  = Match {| ms := map pureMatcher
                     [SuffixMatcher.Match lowerASCIIOnly
                        (NewSuffixMatcher [WithSuffixes [".go"]]);
                      HiddenMatcher.Match (NewHiddenMatcher [WithHidden true]);
                      SuffixMatcher.Match lowerASCIIOnly
                        (NewSuffixMatcher [WithSuffixes [".go"]])] |}
      sampleFS "/r/a/main.go" tt.
Proof.
  apply (proj2 (MultiMatcher_stateless_is_conjunction unit _ _ sampleFS "/r/a/main.go" tt)).
  intros f; simpl; tauto.
Defined.

(** X24. A composite panics iff one of its matchers panics when called
    after all those before it returned true; the message is that matcher's. *)
Theorem MultiMatcher_panics_iff
        (W : Type) (m : MultiMatcher W) (fsys : Fs.FS) (p : string) (w : W)
        (msg : string) :
  Match m fsys p w = Panicked msg <->
  exists before v after w1,
    ms m = (before ++ v :: after)%list
    /\ allTrue fsys p before w w1
    /\ v fsys p w1 = Panicked msg.
Proof. unfold Match. apply matchAll_panic. Qed.

(** X25. A NopMatcher or an IgnoreFileMatcher registered anywhere in a
    composite changes neither its answer nor the memory it leaves. *)
Theorem MultiMatcher_Nop_is_neutral
        (W : Type) (before after : list (Matcher W))
        (fsys : Fs.FS) (p : string) (w : W) :
  Match {| ms := before ++ pureMatcher NopMatcher.Match :: after |} fsys p w
  = Match {| ms := before ++ after |} fsys p w
  /\ Match {| ms := before ++ pureMatcher IgnoreFileMatcher.Match :: after |} fsys p w
     = Match {| ms := before ++ after |} fsys p w.
Proof.
  unfold Match; simpl. rewrite !matchAll_app.
  destruct (matchAll before fsys p w) as [[[|] w1]|msg]; split; reflexivity.
Qed.

(** X26. A composite with a FilenameMatcher among its matchers never
    accepts a path: it rejects it when an earlier matcher does, and panics
    otherwise. *)
Theorem MultiMatcher_with_FilenameMatcher_never_accepts
        (W : Type) (before after : list (Matcher W))
        (fsys : Fs.FS) (p : string) (w w' : W) :
  Match {| ms := before ++ fallibleMatcher FilenameMatcher.Match :: after |} fsys p w
  <> Ok (true, w')
  /\ (forall w1, allTrue fsys p before w w1 ->
        Match {| ms := before ++ fallibleMatcher FilenameMatcher.Match :: after |}
          fsys p w
        = Panicked "todo").
Proof.
  unfold Match; simpl. rewrite matchAll_app. split.
  - destruct (matchAll before fsys p w) as [[[|] w1]|msg]; simpl; discriminate.
  - intros w1 Hall. apply matchAll_true in Hall. rewrite Hall. reflexivity.
Qed.

Lemma MultiMatcher_with_FilenameMatcher_never_accepts_witness :
  Match {| ms := [pureMatcher NopMatcher.Match]
                 ++ fallibleMatcher FilenameMatcher.Match :: [] |}
    sampleFS "/r/f" tt
  = Panicked "todo".
Proof.
  apply (proj2 (MultiMatcher_with_FilenameMatcher_never_accepts
                  unit [pureMatcher NopMatcher.Match] [] sampleFS "/r/f" tt tt) tt).
  econstructor; [reflexivity | constructor].
Defined.

(** ** Paths: only the last element counts *)

(** X27. As written, with the flag off the hidden matcher returns true on
    [dir/name] iff [name] begins with a dot, whatever the directory; with the
    flag on it returns true on every path. *)
Theorem HiddenMatcher_dot_names
        (dir name : string) (fsys : Fs.FS) :
  name <> "" ->
  hasByte "/" name = false ->
  (HiddenMatcher.Match (NewHiddenMatcher [WithHidden false]) fsys (joinPath dir name)
   = true
   <-> exists rest, name = String "." rest)
  /\ HiddenMatcher.Match (NewHiddenMatcher [WithHidden true]) fsys (joinPath dir name)
     = true.
Proof.
  intros Hne Hplain. split; [|reflexivity].
  change (NewHiddenMatcher [WithHidden false]) with {| HiddenMatcher.hidden := false |}.
  rewrite HiddenMatcher_hidden_false, Base_joinPath by assumption.
  unfold beginsWith. split; intros [rest ->]; exists rest; reflexivity.
Qed.

Lemma HiddenMatcher_dot_names_witness :
  HiddenMatcher.Match (NewHiddenMatcher [WithHidden false]) sampleFS
    (joinPath "/r" ".git") = true
  <-> exists rest, ".git" = String "." rest.
Proof.
  apply (proj1 (HiddenMatcher_dot_names "/r" ".git" sampleFS
                  ltac:(discriminate) eq_refl)).
Defined.

(** ** SuffixMatcher: the suffix set *)

Section SuffixSetProps.

Variable mapUnicodeLower : string -> string.

Local Abbreviation Match := (SuffixMatcher.Match mapUnicodeLower).

(** X28. The suffix matcher looks at the last element of the path only:
    [dir/name] and [dir'/name] get the same answer, that of [name] alone. *)
Theorem SuffixMatcher_last_element_only
        (m : SuffixMatcher.t) (fsys fsys' : Fs.FS) (dir dir' name : string) :
  name <> "" ->
  hasByte "/" name = false ->
  Match m fsys (joinPath dir name) = Match m fsys' (joinPath dir' name)
  /\ Match m fsys (joinPath dir name) = Match m fsys' name.
Proof.
  intros Hne Hplain. unfold SuffixMatcher.Match.
  now rewrite !Base_joinPath, Base_plain by assumption.
Qed.

Lemma HasSuffix_empty (s : string) : Strings.HasSuffix s "" = true.
Proof. apply HasSuffix_spec. exists s. induction s; simpl; congruence. Qed.

(** X29. An empty string among the configured suffixes makes the matcher
    accept every path. *)
Theorem SuffixMatcher_empty_suffix_accepts_all
        (m : SuffixMatcher.t) (fsys : Fs.FS) (p : string) :
  In "" (SuffixMatcher.suffixes m) -> Match m fsys p = true.
Proof.
  intros Hin. unfold SuffixMatcher.Match.
  destruct (List.length (SuffixMatcher.suffixes m) =? 0)%nat; [reflexivity|].
  apply existsb_exists. exists "". split; [exact Hin | apply HasSuffix_empty].
Qed.

(** X30. Among non-empty suffix sets, more suffixes accept more: a path
    accepted under S is accepted under every set that contains S.  The empty
    set is the exception: it accepts every path, and adding a suffix to it
    can only take paths away. *)
Theorem SuffixMatcher_monotone
        (m m' : SuffixMatcher.t) (fsys : Fs.FS) (p : string) :
  SuffixMatcher.suffixes m <> [] ->
  incl (SuffixMatcher.suffixes m) (SuffixMatcher.suffixes m') ->
  Match m fsys p = true -> Match m' fsys p = true.
Proof.
  intros Hne Hincl. unfold SuffixMatcher.Match.
  destruct (SuffixMatcher.suffixes m) as [|s0 S] eqn:Hm; [congruence|].
  destruct (SuffixMatcher.suffixes m') as [|s0' S'] eqn:Hm'; [reflexivity|].
  cbn [List.length Nat.eqb]. rewrite !existsb_exists.
  intros (s & Hin & Hs). exists s. split; [now apply Hincl | exact Hs].
Qed.

End SuffixSetProps.

Lemma SuffixMatcher_last_element_only_witness :
  SuffixMatcher.Match lowerASCIIOnly (NewSuffixMatcher [WithSuffixes [".go"]])
    sampleFS (joinPath "/r/a" "Main.GO")
  = SuffixMatcher.Match lowerASCIIOnly (NewSuffixMatcher [WithSuffixes [".go"]])
      sampleFS "Main.GO".
Proof.
  apply (proj2 (SuffixMatcher_last_element_only lowerASCIIOnly
                  (NewSuffixMatcher [WithSuffixes [".go"]]) sampleFS sampleFS
                  "/r/a" "/x" "Main.GO" ltac:(discriminate) eq_refl)).
Defined.

Lemma SuffixMatcher_empty_suffix_accepts_all_witness :
  SuffixMatcher.Match lowerASCIIOnly (NewSuffixMatcher [WithSuffixes [".go"; ""]])
    sampleFS "/r/a/notes.txt" = true.
Proof.
  apply (SuffixMatcher_empty_suffix_accepts_all lowerASCIIOnly
           (NewSuffixMatcher [WithSuffixes [".go"; ""]]) sampleFS "/r/a/notes.txt").
  simpl. tauto.
Defined.

Lemma SuffixMatcher_monotone_witness :
  SuffixMatcher.Match lowerASCIIOnly (NewSuffixMatcher [WithSuffixes [".md"; ".go"]])
    sampleFS "/r/a/main.go" = true.
Proof.
  apply (SuffixMatcher_monotone lowerASCIIOnly
           (NewSuffixMatcher [WithSuffixes [".go"]])
           (NewSuffixMatcher [WithSuffixes [".md"; ".go"]]) sampleFS "/r/a/main.go").
  - discriminate.
  - intros s; simpl; tauto.
  - reflexivity.
Defined.
